(** * SyncStream room server: a shallow embedding of [server/index.js]

    The server keeps all room state in Redis and talks to its clients over
    Socket.io.  This development embeds the REST handlers, the socket event
    handlers and the periodic sweep of [server/index.js] as functions over an
    explicit world (Redis store, Socket.io rooms, command log, outbox) and
    proves properties of them.

    Conventions of the model.
    - Redis is modelled by its three value families that the server uses
      (hashes, sets, lists) indexed by the real key strings, with a table of
      armed expiry deadlines.  A key is taken to hold one kind of value, so
      no command answers WRONGTYPE.
    - A JavaScript number is represented by its decimal rendering, which is
      what [toString] yields and what Redis stores.
    - [Date.now()] reads the clock of the world; [uuidv4()] draws from a
      counter; [Math.random()] draws are an explicit input.
    - SMEMBERS and KEYS answer in an unspecified order; the model enumerates
      with [elements] and no theorem depends on that order.
    - Strings are byte strings; one character stands for one UTF-16 code
      unit below 256 where [length] and [trim] matter. *)

From Stdlib Require Import ZArith Lia Ascii DecimalString DecimalPos.
From stdpp Require Import gmap strings list sorting.

Set Warnings "-register-all,-clear-no-such-hyp".
Local Open Scope string_scope.
Local Open Scope list_scope.
Local Open Scope Z_scope.

(** ** JavaScript values that travel in payloads *)

Inductive JVal :=
  | JUndef
  | JBool (b : bool)
  | JNum (repr : string)
  | JStr (s : string)
  | JArr (xs : list JVal)
  | JObj (fields : list (string * JVal)).

(** [Number.prototype.toString] on an integer, and [parseInt] with no radix:
    leading white space, an optional sign, then the longest run of digits;
    [None] stands for NaN. *)
Definition num_str (z : Z) : string := NilZero.string_of_int (Z.to_int z).

Definition is_js_space (c : ascii) : bool :=
  let n := Ascii.nat_of_ascii c in
  ((9 <=? n)%nat && (n <=? 13)%nat) || (n =? 32)%nat || (n =? 160)%nat.

Fixpoint trim_start (s : string) : string :=
  match s with
  | String c s' => if is_js_space c then trim_start s' else s
  | EmptyString => EmptyString
  end.

Definition digit_of (c : ascii) : option (Decimal.uint -> Decimal.uint) :=
  match c with
  | "0"%char => Some Decimal.D0 | "1"%char => Some Decimal.D1
  | "2"%char => Some Decimal.D2 | "3"%char => Some Decimal.D3
  | "4"%char => Some Decimal.D4 | "5"%char => Some Decimal.D5
  | "6"%char => Some Decimal.D6 | "7"%char => Some Decimal.D7
  | "8"%char => Some Decimal.D8 | "9"%char => Some Decimal.D9
  | _ => None
  end.

Fixpoint digits_prefix (s : string) : Decimal.uint :=
  match s with
  | String c s' =>
      match digit_of c with
      | Some d => d (digits_prefix s')
      | None => Decimal.Nil
      end
  | EmptyString => Decimal.Nil
  end.

Definition parse_digits (s : string) : option Z :=
  match digits_prefix s with
  | Decimal.Nil => None
  | d => Some (Z.of_N (N.of_uint d))
  end.

Definition hex_digit (c : ascii) : option Z :=
  let n := Z.of_nat (Ascii.nat_of_ascii c) in
  if (48 <=? n) && (n <=? 57) then Some (n - 48)
  else if (65 <=? n) && (n <=? 70) then Some (n - 55)
  else if (97 <=? n) && (n <=? 102) then Some (n - 87)
  else None.

Fixpoint parse_hex (s : string) (acc : option Z) : option Z :=
  match s with
  | String c s' =>
      match hex_digit c with
      | Some d => parse_hex s' (Some (16 * default 0 acc + d))
      | None => acc
      end
  | EmptyString => acc
  end.

(** With no radix given, a [0x] or [0X] prefix selects base 16. *)
Definition parse_magnitude (s : string) : option Z :=
  match s with
  | String "0" (String "x" s') => parse_hex s' None
  | String "0" (String "X" s') => parse_hex s' None
  | _ => parse_digits s
  end.

Definition parseInt (s : string) : option Z :=
  match trim_start s with
  | String "-" s' => Z.opp <$> parse_magnitude s'
  | String "+" s' => parse_magnitude s'
  | s' => parse_magnitude s'
  end.

(** [parseInt(undefined)] is NaN. *)
Definition parseInt_field (o : option string) : option Z :=
  match o with Some s => parseInt s | None => None end.

(** Truthiness of a string-valued expression: [undefined] and [''] are falsy. *)
Definition truthy (o : option string) : bool :=
  match o with Some (String _ _) => true | _ => false end.

(** ** The configuration object *)

Module config.
Definition maxParticipants : Z := 50.
Definition idleTimeout : Z := 3600000.
Definition codeLength : nat := 6.
End config.

(** ** Redis *)

Record Store := mkStore {
  hashes : gmap string (gmap string string);
  sets : gmap string (gset string);
  lists : gmap string (list JVal);
  ttls : gmap string Z
}.

Definition empty_store : Store := mkStore ∅ ∅ ∅ ∅.

Inductive Cmd :=
  | HGETALL (k : string)
  | HMSET (k : string) (fields : list (string * string))
  | HSET (k f v : string)
  | EXISTS (k : string)
  | EXPIRE (k : string) (secs : Z)
  | DEL (k : string)
  | SADD (k x : string)
  | SREM (k x : string)
  | SCARD (k : string)
  | SMEMBERS (k : string)
  | RPUSH (k : string) (v : JVal)
  | LTRIM (k : string) (start stop : Z)
  | LRANGE (k : string) (start stop : Z)
  | KEYS (prefix : string).

Definition st_hgetall (s : Store) (k : string) : gmap string string :=
  default ∅ (hashes s !! k).

Definition st_smembers (s : Store) (k : string) : gset string :=
  default ∅ (sets s !! k).

Definition st_list (s : Store) (k : string) : list JVal :=
  default [] (lists s !! k).

Definition st_scard (s : Store) (k : string) : Z :=
  Z.of_nat (size (st_smembers s k)).

(** A key exists when it holds a non-empty value. *)
Definition st_exists (s : Store) (k : string) : bool :=
  negb (bool_decide (st_hgetall s k = ∅))
  || negb (bool_decide (st_smembers s k = ∅))
  || negb (bool_decide (st_list s k = [])).

(** HMSET merges the given fields over the stored hash. *)
Definition st_hmset (s : Store) (k : string) (fields : list (string * string)) : Store :=
  mkStore (<[k := list_to_map fields ∪ st_hgetall s k]> (hashes s))
          (sets s) (lists s) (ttls s).

Definition st_hset (s : Store) (k f v : string) : Store :=
  st_hmset s k [(f, v)].

(** EXPIRE arms a deadline only on an existing key. *)
Definition st_expire (s : Store) (k : string) (deadline : Z) : Store :=
  if st_exists s k
  then mkStore (hashes s) (sets s) (lists s) (<[k := deadline]> (ttls s))
  else s.

Definition st_del (s : Store) (k : string) : Store :=
  mkStore (delete k (hashes s)) (delete k (sets s)) (delete k (lists s))
          (delete k (ttls s)).

Definition st_sadd (s : Store) (k x : string) : Store :=
  mkStore (hashes s) (<[k := {[x]} ∪ st_smembers s k]> (sets s)) (lists s) (ttls s).

Definition st_srem (s : Store) (k x : string) : Store :=
  mkStore (hashes s) (<[k := st_smembers s k ∖ {[x]}]> (sets s)) (lists s) (ttls s).

Definition st_rpush (s : Store) (k : string) (v : JVal) : Store :=
  mkStore (hashes s) (sets s) (<[k := st_list s k ++ [v]]> (lists s)) (ttls s).

(** The inclusive index range of LRANGE and LTRIM; a negative index counts
    from the end of the list. *)
Definition list_range {A} (l : list A) (start stop : Z) : list A :=
  let n := Z.of_nat (length l) in
  let a := Z.max 0 (if start <? 0 then n + start else start) in
  let b := Z.min (n - 1) (if stop <? 0 then n + stop else stop) in
  if b <? a then [] else take (Z.to_nat (b - a + 1)) (drop (Z.to_nat a) l).

Definition st_ltrim (s : Store) (k : string) (start stop : Z) : Store :=
  mkStore (hashes s) (sets s) (<[k := list_range (st_list s k) start stop]> (lists s))
          (ttls s).

Definition has_prefix (p s : string) : bool := String.prefix p s.

Definition st_keys (s : Store) (p : string) : list string :=
  filter (λ k, has_prefix p k = true ∧ st_exists s k = true)
         (elements (dom (hashes s) ∪ dom (sets s) ∪ dom (lists s))).

(** ** Socket.io and the world a handler runs in *)

(** [socket.emit], [socket.to(room).emit] and [io.to(room).emit]. *)
Inductive Target :=
  | ToSender (sid : string)
  | ToRoomExcept (room sid : string)
  | ToRoom (room : string).

Record Emit := mkEmit {
  e_target : Target;
  e_event : string;
  e_payload : JVal
}.

Record World := mkWorld {
  store : Store;
  io_rooms : gmap string (gset string);
  redis_log : list Cmd;
  outbox : list Emit;
  clock : Z;
  uuids : N;
  random_ix : nat → nat;
  random_pos : nat
}.

Definition with_store (w : World) (s : Store) (c : Cmd) : World :=
  mkWorld s (io_rooms w) (redis_log w ++ [c]) (outbox w) (clock w) (uuids w)
          (random_ix w) (random_pos w).

(** The sockets a room name reaches.  Socket.io puts every socket in the
    room named by its own id when it connects (see [on_connection]). *)
Definition room_sockets (w : World) (room : string) : gset string :=
  default ∅ (io_rooms w !! room).

Definition recipients (w : World) (t : Target) : gset string :=
  match t with
  | ToSender sid => {[sid]}
  | ToRoomExcept room sid => room_sockets w room ∖ {[sid]}
  | ToRoom room => room_sockets w room
  end.

(** ** Handlers as state-and-exception computations *)

Inductive Res (A : Type) :=
  | Ok (a : A)
  | Throw (e : string).
Arguments Ok {A} a.
Arguments Throw {A} e.

Definition M (A : Type) : Type := World → Res A * World.

Definition ret {A} (a : A) : M A := λ w, (Ok a, w).

Definition bind {A B} (m : M A) (k : A → M B) : M B :=
  λ w, match m w with
       | (Ok a, w') => k a w'
       | (Throw e, w') => (Throw e, w')
       end.

Definition throw {A} (e : string) : M A := λ w, (Throw e, w).

(** [try { m } catch (error) { h }] *)
Definition try_catch {A} (m : M A) (h : string → M A) : M A :=
  λ w, match m w with
       | (Ok a, w') => (Ok a, w')
       | (Throw e, w') => h e w'
       end.

Notation "x <- m ;; k" := (bind m (λ x, k))
  (at level 100, m at next level, right associativity,
   format "'[v' x  <-  m  ;;  '/' k ']'").
Notation "m ;;; k" := (bind m (λ _, k))
  (at level 100, right associativity, format "'[v' m  ;;;  '/' k ']'").

Fixpoint for_each {A} (xs : list A) (body : A → M unit) : M unit :=
  match xs with
  | [] => ret tt
  | x :: xs' => body x ;;; for_each xs' body
  end.

Definition Date_now : M Z := λ w, (Ok (clock w), w).

Definition uuidv4 : M string :=
  λ w, (Ok ("uuid-" +:+ num_str (Z.of_N (uuids w))),
        mkWorld (store w) (io_rooms w) (redis_log w) (outbox w) (clock w)
                (N.succ (uuids w)) (random_ix w) (random_pos w)).

(** One draw of [Math.floor(Math.random() * chars.length)]. *)
Definition random_index : M nat :=
  λ w, (Ok (random_ix w (random_pos w)),
        mkWorld (store w) (io_rooms w) (redis_log w) (outbox w) (clock w)
                (uuids w) (random_ix w) (S (random_pos w))).

Definition emit (t : Target) (event : string) (payload : JVal) : M unit :=
  λ w, (Ok tt,
        mkWorld (store w) (io_rooms w) (redis_log w)
                (outbox w ++ [mkEmit t event payload]) (clock w) (uuids w)
                (random_ix w) (random_pos w)).

Definition with_rooms (w : World) (r : gmap string (gset string)) : World :=
  mkWorld (store w) r (redis_log w) (outbox w) (clock w) (uuids w)
          (random_ix w) (random_pos w).

Definition socket_join (sid room : string) : M unit :=
  λ w, (Ok tt, with_rooms w (<[room := {[sid]} ∪ room_sockets w room]> (io_rooms w))).

Definition socket_leave (sid room : string) : M unit :=
  λ w, (Ok tt, with_rooms w (<[room := room_sockets w room ∖ {[sid]}]> (io_rooms w))).

(** *** The Redis client *)

Module redis.
Definition hgetall (k : string) : M (gmap string string) :=
  λ w, (Ok (st_hgetall (store w) k), with_store w (store w) (HGETALL k)).
Definition hmset (k : string) (fields : list (string * string)) : M unit :=
  λ w, (Ok tt, with_store w (st_hmset (store w) k fields) (HMSET k fields)).
Definition hset (k f v : string) : M unit :=
  λ w, (Ok tt, with_store w (st_hset (store w) k f v) (HSET k f v)).
Definition exists_ (k : string) : M bool :=
  λ w, (Ok (st_exists (store w) k), with_store w (store w) (EXISTS k)).
Definition expire (k : string) (secs : Z) : M unit :=
  λ w, (Ok tt, with_store w (st_expire (store w) k (clock w + secs * 1000))
                          (EXPIRE k secs)).
Definition del (k : string) : M unit :=
  λ w, (Ok tt, with_store w (st_del (store w) k) (DEL k)).
Definition sadd (k x : string) : M unit :=
  λ w, (Ok tt, with_store w (st_sadd (store w) k x) (SADD k x)).
Definition srem (k x : string) : M unit :=
  λ w, (Ok tt, with_store w (st_srem (store w) k x) (SREM k x)).
Definition scard (k : string) : M Z :=
  λ w, (Ok (st_scard (store w) k), with_store w (store w) (SCARD k)).
Definition smembers (k : string) : M (list string) :=
  λ w, (Ok (elements (st_smembers (store w) k)),
        with_store w (store w) (SMEMBERS k)).
Definition rpush (k : string) (v : JVal) : M unit :=
  λ w, (Ok tt, with_store w (st_rpush (store w) k v) (RPUSH k v)).
Definition ltrim (k : string) (start stop : Z) : M unit :=
  λ w, (Ok tt, with_store w (st_ltrim (store w) k start stop) (LTRIM k start stop)).
Definition lrange (k : string) (start stop : Z) : M (list JVal) :=
  λ w, (Ok (list_range (st_list (store w) k) start stop),
        with_store w (store w) (LRANGE k start stop)).
Definition keys (prefix : string) : M (list string) :=
  λ w, (Ok (st_keys (store w) prefix), with_store w (store w) (KEYS prefix)).
End redis.

(** Key templates. *)
Definition room_key (roomId : string) : string := "room:" +:+ roomId.
Definition participants_key (roomId : string) : string :=
  "room:" +:+ roomId +:+ ":participants".
Definition messages_key (roomId : string) : string :=
  "room:" +:+ roomId +:+ ":messages".
Definition user_key (roomId odaId : string) : string :=
  "user:" +:+ roomId +:+ ":" +:+ odaId.

(** ** Utility functions *)

Definition chars : string := "ABCDEFGHJKLMNPQRSTUVWXYZ23456789".

Definition charAt (s : string) (i : nat) : string :=
  match String.get i s with
  | Some c => String c EmptyString
  | None => EmptyString
  end.

Fixpoint generateRoomCode_loop (n : nat) (code : string) : M string :=
  match n with
  | O => ret code
  | S n' =>
      i <- random_index ;;
      generateRoomCode_loop n' (code +:+ charAt chars i)
  end.

Definition generateRoomCode : M string :=
  generateRoomCode_loop config.codeLength "".

Record Room := mkRoom {
  r_data : gmap string string;
  r_isPlaying : bool;
  r_createdAt : option Z;
  r_lastSync : option Z
}.

Definition r_field (r : Room) (f : string) : option string := r_data r !! f.

(** [currentTime] is a float; the record keeps its stored text in [r_data]
    and nothing below inspects its value. *)
Definition room_of_hash (roomData : gmap string string) : option Room :=
  if negb (truthy (roomData !! "id")) then None
  else Some (mkRoom roomData
                    (bool_decide (roomData !! "isPlaying" = Some "true"))
                    (parseInt_field (roomData !! "createdAt"))
                    (parseInt_field (roomData !! "lastSync"))).

Definition getRoomData (roomId : string) : M (option Room) :=
  roomData <- redis.hgetall (room_key roomId) ;;
  ret (room_of_hash roomData).

Record Participant := mkParticipant {
  p_data : gmap string string;
  p_isHost : bool;
  p_joinedAt : option Z
}.

Definition p_field (p : Participant) (f : string) : string :=
  default "" (p_data p !! f).
Definition p_id (p : Participant) : string := p_field p "id".
Definition p_name (p : Participant) : string := p_field p "name".

Definition participant_of_hash (userData : gmap string string) : Participant :=
  mkParticipant userData
                (bool_decide (userData !! "isHost" = Some "true"))
                (parseInt_field (userData !! "joinedAt")).

(** The comparator [(a, b) => a.joinedAt - b.joinedAt]; a NaN difference
    counts as 0. *)
Definition compare_joinedAt (a b : Participant) : Z :=
  match p_joinedAt a, p_joinedAt b with
  | Some x, Some y => x - y
  | _, _ => 0
  end.

(** [Array.prototype.sort] is stable; it is modelled by insertion sort. *)
Fixpoint sort_insert (a : Participant) (l : list Participant) : list Participant :=
  match l with
  | [] => [a]
  | b :: l' =>
      if compare_joinedAt a b <=? 0 then a :: b :: l' else b :: sort_insert a l'
  end.

Definition js_sort (l : list Participant) : list Participant :=
  foldr sort_insert [] l.

Fixpoint collect_participants (roomId : string) (ids : list string)
    (participants : list Participant) : M (list Participant) :=
  match ids with
  | [] => ret participants
  | odaId :: ids' =>
      userData <- redis.hgetall (user_key roomId odaId) ;;
      if truthy (userData !! "id")
      then collect_participants roomId ids'
             (participants ++ [participant_of_hash userData])
      else collect_participants roomId ids' participants
  end.

Definition getRoomParticipants (roomId : string) : M (list Participant) :=
  participantIds <- redis.smembers (participants_key roomId) ;;
  participants <- collect_participants roomId participantIds [] ;;
  ret (js_sort participants).

Definition deleteRoom (roomId : string) : M unit :=
  participantIds <- redis.smembers (participants_key roomId) ;;
  for_each participantIds (λ odaId, redis.del (user_key roomId odaId)) ;;;
  redis.del (room_key roomId) ;;;
  redis.del (participants_key roomId) ;;;
  redis.del (messages_key roomId).

(** ** REST API endpoints *)

Inductive Body :=
  | BError (error : string)
  | BRoomInfo (room : Room) (participantCount : Z)
  | BCreated (roomId name : string) (createdAt : Z)
  | BValid (participantCount : Z) (isFull : bool)
  | BInvalid.

Record Response := mkResponse {
  status : Z;
  body : Body
}.

(** GET /api/room/:roomId *)
Definition api_room_get (roomId : string) : M Response :=
  try_catch
    (room <- getRoomData roomId ;;
     match room with
     | None => ret (mkResponse 404 (BError "Room not found"))
     | Some room =>
         participants <- getRoomParticipants roomId ;;
         ret (mkResponse 200 (BRoomInfo room (Z.of_nat (length participants))))
     end)
    (λ _, ret (mkResponse 500 (BError "Internal server error"))).

Record CreateBody := mkCreateBody {
  cb_userId : option string;
  cb_userName : option string;
  cb_userAvatar : option string
}.

(** The [do { ... } while (attempts < 10)] loop of the create handler; it
    yields the last code drawn and the number of collisions. *)
Fixpoint room_code_loop (fuel : nat) (attempts : Z) : M (string * Z) :=
  match fuel with
  | O => ret ("", attempts)
  | S fuel' =>
      roomId <- generateRoomCode ;;
      exists_ <- redis.exists_ (room_key roomId) ;;
      if negb exists_ then ret (roomId, attempts)
      else if attempts + 1 <? 10 then room_code_loop fuel' (attempts + 1)
      else ret (roomId, attempts + 1)
  end.

(** Names bound at module level in [server/index.js]. *)
Definition module_bindings : list string :=
  ["express"; "http"; "Server"; "Redis"; "cors"; "helmet"; "rateLimit";
   "uuidv4"; "config"; "app"; "server"; "redis"; "redisPub"; "redisSub"; "io";
   "limiter"; "generateRoomCode"; "getRoomData"; "getRoomParticipants";
   "deleteRoom"].

Definition opt_json (o : option string) : JVal :=
  match o with Some s => JStr s | None => JUndef end.

(** The bindings visible where the create handler builds the room record:
    its parameters, the destructured body, its locals, then the module. *)
Definition create_scope (b : CreateBody) (roomId : string) (attempts now : Z)
    : list (string * JVal) :=
  [("req", JObj []); ("res", JObj []);
   ("userId", opt_json (cb_userId b)); ("userName", opt_json (cb_userName b));
   ("userAvatar", opt_json (cb_userAvatar b));
   ("roomId", JStr roomId); ("attempts", JNum (num_str attempts));
   ("now", JNum (num_str now))]
  ++ map (λ x, (x, JObj [])) module_bindings.

Fixpoint assoc {A} (x : string) (l : list (string * A)) : option A :=
  match l with
  | [] => None
  | (y, v) :: l' => if String.eqb x y then Some v else assoc x l'
  end.

(** Reading an identifier that no enclosing scope binds throws.  The
    globals of the runtime lie beyond the module; none is named [odaId]. *)
Definition resolve (scope : list (string * JVal)) (x : string) : M JVal :=
  match assoc x scope with
  | Some v => ret v
  | None => throw ("ReferenceError: " +:+ x +:+ " is not defined")
  end.

(** What the Redis client sends for a value. *)
Definition to_arg (v : JVal) : string :=
  match v with
  | JStr s => s
  | JNum r => r
  | JBool true => "true"
  | JBool false => "false"
  | JUndef => ""
  | JArr _ => ""
  | JObj _ => "[object Object]"
  end.

Definition room_name (userName : string) : string := userName +:+ "'ın Odası".

(** POST /api/room/create *)
Definition api_room_create (b : CreateBody) : M Response :=
  try_catch
    (if negb (truthy (cb_userId b)) || negb (truthy (cb_userName b))
     then ret (mkResponse 400 (BError "Missing required fields"))
     else
       let userName := default "" (cb_userName b) in
       drawn <- room_code_loop 10 0 ;;
       let '(roomId, attempts) := drawn in
       if 10 <=? attempts
       then ret (mkResponse 500 (BError "Could not generate room code"))
       else
         now <- Date_now ;;
         hostId <- resolve (create_scope b roomId attempts now) "odaId" ;;
         redis.hmset (room_key roomId)
           [("id", roomId); ("name", room_name userName);
            ("hostId", to_arg hostId); ("createdAt", num_str now);
            ("mediaType", ""); ("mediaUrl", ""); ("isPlaying", "false");
            ("currentTime", "0"); ("lastSync", num_str now)] ;;;
         redis.expire (room_key roomId) (config.idleTimeout / 1000) ;;;
         ret (mkResponse 200 (BCreated roomId (room_name userName) now)))
    (λ _, ret (mkResponse 500 (BError "Internal server error"))).

(** GET /api/room/:roomId/validate *)
Definition api_room_validate (roomId : string) : M Response :=
  try_catch
    (exists_ <- redis.exists_ (room_key roomId) ;;
     if negb exists_ then ret (mkResponse 404 BInvalid)
     else
       participants <- redis.scard (participants_key roomId) ;;
       ret (mkResponse 200
              (BValid participants (config.maxParticipants <=? participants))))
    (λ _, ret (mkResponse 500 (BError "Internal server error"))).

(** ** Socket.io event handlers *)

(** The [user] object of a join payload.  A missing string field is
    indistinguishable from [''] wherever the handlers test it. *)
Record User := mkUser {
  u_id : string;
  u_name : string;
  u_avatar : string;
  u_isHost : bool
}.

(** [currentUser]: the payload's user, with the fields [join_room] adds. *)
Record CurrentUser := mkCurrentUser {
  cu_user : User;
  cu_socketId : option string;
  cu_joinedAt : option Z
}.

(** The per-connection closure: [socket.id], [currentRoom], [currentUser]. *)
Record Conn := mkConn {
  socket_id : string;
  currentRoom : option string;
  currentUser : option CurrentUser
}.

Definition nonempty (s : string) : bool :=
  match s with EmptyString => false | String _ _ => true end.

(** [!currentRoom || !currentUser] fails. *)
Definition bound (c : Conn) : option (string * CurrentUser) :=
  match currentRoom c, currentUser c with
  | Some room, Some user => if nonempty room then Some (room, user) else None
  | _, _ => None
  end.

(** [!currentRoom] fails. *)
Definition bound_room (c : Conn) : option string :=
  match currentRoom c with
  | Some room => if nonempty room then Some room else None
  | None => None
  end.

Definition num_json (o : option Z) : JVal :=
  JNum (match o with Some z => num_str z | None => "NaN" end).

Definition hash_json (h : gmap string string) : list (string * JVal) :=
  (λ kv, (kv.1, JStr kv.2)) <$> map_to_list h.

(** Objects built with a spread: a later binding of a field overrides an
    earlier one. *)
Definition room_json (r : Room) : JVal :=
  JObj (hash_json (r_data r)
        ++ [("isPlaying", JBool (r_isPlaying r));
            ("currentTime", JNum (default "0" (r_field r "currentTime")));
            ("createdAt", num_json (r_createdAt r));
            ("lastSync", num_json (r_lastSync r))]).

Definition participant_json (p : Participant) : JVal :=
  JObj (hash_json (p_data p)
        ++ [("isHost", JBool (p_isHost p)); ("joinedAt", num_json (p_joinedAt p))]).

Definition user_json (u : User) : JVal :=
  JObj [("id", JStr (u_id u)); ("name", JStr (u_name u));
        ("avatar", JStr (u_avatar u)); ("isHost", JBool (u_isHost u))].

Definition current_user_json (cu : CurrentUser) : JVal :=
  let u := cu_user cu in
  JObj [("id", JStr (u_id u)); ("name", JStr (u_name u));
        ("avatar", JStr (u_avatar u));
        ("socketId", opt_json (cu_socketId cu));
        ("joinedAt", match cu_joinedAt cu with
                     | Some z => JNum (num_str z) | None => JUndef end);
        ("isHost", JBool (u_isHost u))].

Definition error_json (message : string) : JVal := JObj [("message", JStr message)].

Definition bool_str (b : bool) : string := if b then "true" else "false".

Definition system_message (id text : string) (timestamp : Z) : JVal :=
  JObj [("id", JStr id); ("type", JStr "system"); ("text", JStr text);
        ("timestamp", JNum (num_str timestamp))].

Definition on_connection (sid : string) : M Conn :=
  socket_join sid sid ;;; ret (mkConn sid None None).

Record JoinData := mkJoinData {
  jd_roomId : string;
  jd_user : option User
}.

(** socket.on('join_room') *)
Definition on_join_room (c : Conn) (data : JoinData) : M Conn :=
  let sid := socket_id c in
  let roomId := jd_roomId data in
  try_catch
    (match jd_user data with
     | None => emit (ToSender sid) "error" (error_json "Invalid join request") ;;; ret c
     | Some user =>
         if negb (nonempty roomId) || negb (nonempty (u_id user))
            || negb (nonempty (u_name user))
         then emit (ToSender sid) "error" (error_json "Invalid join request") ;;; ret c
         else
           room <- getRoomData roomId ;;
           match room with
           | None => emit (ToSender sid) "error" (error_json "Room not found") ;;; ret c
           | Some room =>
               participantCount <- redis.scard (participants_key roomId) ;;
               if config.maxParticipants <=? participantCount
               then emit (ToSender sid) "error" (error_json "Room is full") ;;; ret c
               else
                 joinedAt <- Date_now ;;
                 let isHost := bool_decide (r_field room "hostId" = Some (u_id user)) in
                 let cu := mkCurrentUser
                             (mkUser (u_id user) (u_name user) (u_avatar user) isHost)
                             (Some sid) (Some joinedAt) in
                 redis.hmset (user_key roomId (u_id user))
                   [("id", u_id user); ("name", u_name user);
                    ("avatar", if nonempty (u_avatar user) then u_avatar user else "🎬");
                    ("socketId", sid); ("joinedAt", num_str joinedAt);
                    ("isHost", bool_str isHost)] ;;;
                 redis.sadd (participants_key roomId) (u_id user) ;;;
                 socket_join sid roomId ;;;
                 participants <- getRoomParticipants roomId ;;
                 messages <- redis.lrange (messages_key roomId) (-50) (-1) ;;
                 emit (ToSender sid) "room_joined"
                   (JObj [("room", room_json room);
                          ("participants", JArr (participant_json <$> participants));
                          ("messages", JArr messages);
                          ("isHost", JBool isHost)]) ;;;
                 emit (ToRoomExcept roomId sid) "participant_joined"
                   (JObj [("user", current_user_json cu)]) ;;;
                 redis.expire (room_key roomId) (config.idleTimeout / 1000) ;;;
                 ret (mkConn sid (Some roomId) (Some cu))
           end
     end)
    (λ _, emit (ToSender sid) "error" (error_json "Failed to join room") ;;; ret c).

Record MediaData := mkMediaData {
  md_mediaType : option string;
  md_mediaUrl : option string
}.

(** socket.on('media_change') *)
Definition on_media_change (c : Conn) (data : MediaData) : M Conn :=
  try_catch
    (match bound c with
     | None => ret tt
     | Some (room, cu) =>
         lastSync <- Date_now ;;
         redis.hmset (room_key room)
           [("mediaType", if truthy (md_mediaType data)
                          then default "" (md_mediaType data) else "");
            ("mediaUrl", if truthy (md_mediaUrl data)
                         then default "" (md_mediaUrl data) else "");
            ("isPlaying", "false"); ("currentTime", "0");
            ("lastSync", num_str lastSync)] ;;;
         timestamp <- Date_now ;;
         emit (ToRoom room) "media_changed"
           (JObj [("mediaType", opt_json (md_mediaType data));
                  ("mediaUrl", opt_json (md_mediaUrl data));
                  ("changedBy", JStr (u_name (cu_user cu)));
                  ("timestamp", JNum (num_str timestamp))]) ;;;
         id <- uuidv4 ;;
         ts <- Date_now ;;
         let systemMessage :=
           system_message id (u_name (cu_user cu) +:+ " yeni medya yükledi") ts in
         redis.rpush (messages_key room) systemMessage ;;;
         emit (ToRoom room) "chat_message" systemMessage
     end)
    (λ _, ret tt) ;;;
  ret c.

(** A playback payload: the flag by its truthiness, a number by its
    rendering; [None] is a missing number, on which [toString] throws. *)
Record PlaybackData := mkPlaybackData {
  pd_isPlaying : bool;
  pd_currentTime : option string
}.

Definition toString (n : option string) : M string :=
  match n with
  | Some r => ret r
  | None => throw "TypeError: Cannot read properties of undefined (reading 'toString')"
  end.

(** socket.on('playback_state') *)
Definition on_playback_state (c : Conn) (data : PlaybackData) : M Conn :=
  try_catch
    (match bound c with
     | None => ret tt
     | Some (room, cu) =>
         now <- Date_now ;;
         currentTime <- toString (pd_currentTime data) ;;
         redis.hmset (room_key room)
           [("isPlaying", bool_str (pd_isPlaying data));
            ("currentTime", currentTime); ("lastSync", num_str now)] ;;;
         emit (ToRoom room) "playback_sync"
           (JObj [("isPlaying", JBool (pd_isPlaying data));
                  ("currentTime", JNum currentTime);
                  ("syncedBy", JStr (u_name (cu_user cu)));
                  ("timestamp", JNum (num_str now))])
     end)
    (λ _, ret tt) ;;;
  ret c.

Record SyncData := mkSyncData { sd_time : option string }.

(** socket.on('sync:play') *)
Definition on_sync_play (c : Conn) (data : SyncData) : M Conn :=
  try_catch
    (match bound c with
     | None => ret tt
     | Some (room, _) =>
         time <- toString (sd_time data) ;;
         lastSync <- Date_now ;;
         redis.hmset (room_key room)
           [("isPlaying", "true"); ("currentTime", time);
            ("lastSync", num_str lastSync)] ;;;
         emit (ToRoomExcept room (socket_id c)) "sync:play" (JObj [("time", JNum time)])
     end)
    (λ _, ret tt) ;;;
  ret c.

(** socket.on('sync:pause') *)
Definition on_sync_pause (c : Conn) (data : SyncData) : M Conn :=
  try_catch
    (match bound c with
     | None => ret tt
     | Some (room, _) =>
         time <- toString (sd_time data) ;;
         lastSync <- Date_now ;;
         redis.hmset (room_key room)
           [("isPlaying", "false"); ("currentTime", time);
            ("lastSync", num_str lastSync)] ;;;
         emit (ToRoomExcept room (socket_id c)) "sync:pause" (JObj [("time", JNum time)])
     end)
    (λ _, ret tt) ;;;
  ret c.

(** socket.on('sync:seek') *)
Definition on_sync_seek (c : Conn) (data : SyncData) : M Conn :=
  try_catch
    (match bound c with
     | None => ret tt
     | Some (room, _) =>
         time <- toString (sd_time data) ;;
         lastSync <- Date_now ;;
         redis.hmset (room_key room)
           [("currentTime", time); ("lastSync", num_str lastSync)] ;;;
         emit (ToRoomExcept room (socket_id c)) "sync:seek" (JObj [("time", JNum time)])
     end)
    (λ _, ret tt) ;;;
  ret c.

(** socket.on('sync:request') *)
Definition on_sync_request (c : Conn) : M Conn :=
  try_catch
    (match bound_room c with
     | None => ret tt
     | Some currentRoom =>
         room <- getRoomData currentRoom ;;
         match room with
         | Some room =>
             emit (ToSender (socket_id c)) "sync:state"
               (JObj [("time", JNum (default "0" (r_field room "currentTime")));
                      ("playing", JBool (r_isPlaying room));
                      ("mediaType", opt_json (r_field room "mediaType"));
                      ("mediaUrl", opt_json (r_field room "mediaUrl"))])
         | None => ret tt
         end
     end)
    (λ _, ret tt) ;;;
  ret c.

Record SyncStateData := mkSyncStateData {
  ss_targetUserId : option string;
  ss_data : JVal
}.

(** socket.on('sync:state') *)
Definition on_sync_state (c : Conn) (data : SyncStateData) : M Conn :=
  try_catch
    (match bound_room c with
     | None => ret tt
     | Some currentRoom =>
         if truthy (ss_targetUserId data)
         then
           participants <- getRoomParticipants currentRoom ;;
           match find (λ p, bool_decide (Some (p_id p) = ss_targetUserId data))
                      participants with
           | Some target =>
               if truthy (p_data target !! "socketId")
               then emit (ToRoom (p_field target "socketId")) "sync:state" (ss_data data)
               else ret tt
           | None => ret tt
           end
         else emit (ToRoomExcept currentRoom (socket_id c)) "sync:state" (ss_data data)
     end)
    (λ _, ret tt) ;;;
  ret c.

(** Reading a property of [user] when the payload carries none throws. *)
Definition the_user (user : option User) : M User :=
  match user with
  | Some u => ret u
  | None => throw "TypeError: Cannot read properties of undefined"
  end.

(** socket.on('room:join') *)
Definition on_room_join (c : Conn) (data : JoinData) : M Conn :=
  let sid := socket_id c in
  let roomId := jd_roomId data in
  let c' := mkConn sid (Some roomId)
                   ((λ u, mkCurrentUser u None None) <$> jd_user data) in
  try_catch
    (socket_join sid roomId ;;;
     roomExists <- redis.exists_ (room_key roomId) ;;
     (if negb roomExists
      then
        user <- the_user (jd_user data) ;;
        createdAt <- Date_now ;;
        lastSync <- Date_now ;;
        redis.hmset (room_key roomId)
          [("id", roomId);
           ("name", if u_isHost user then room_name (u_name user) else "Watch Party");
           ("hostId", if u_isHost user then u_id user else "");
           ("createdAt", num_str createdAt);
           ("mediaType", ""); ("mediaUrl", ""); ("isPlaying", "false");
           ("currentTime", "0"); ("lastSync", num_str lastSync)]
      else ret tt) ;;;
     user <- the_user (jd_user data) ;;
     redis.sadd (participants_key roomId) (u_id user) ;;;
     joinedAt <- Date_now ;;
     redis.hmset (user_key roomId (u_id user))
       [("id", u_id user); ("name", u_name user); ("avatar", u_avatar user);
        ("socketId", sid); ("joinedAt", num_str joinedAt);
        ("isHost", bool_str (u_isHost user))] ;;;
     participants <- getRoomParticipants roomId ;;
     room <- getRoomData roomId ;;
     emit (ToSender sid) "room:users" (JArr (participant_json <$> participants)) ;;;
     (match room with
      | Some room =>
          if truthy (r_field room "mediaUrl")
          then emit (ToSender sid) "media:change"
                 (JObj [("mediaType", opt_json (r_field room "mediaType"));
                        ("mediaUrl", opt_json (r_field room "mediaUrl"))])
          else ret tt
      | None => ret tt
      end) ;;;
     emit (ToRoomExcept roomId sid) "room:user_joined" (user_json user))
    (λ _, ret tt) ;;;
  ret c'.

(** handleLeaveRoom() *)
Definition handleLeaveRoom (c : Conn) : M Conn :=
  try_catch
    (match bound c with
     | None => ret c
     | Some (room, cu) =>
         let me := cu_user cu in
         redis.srem (participants_key room) (u_id me) ;;;
         redis.del (user_key room (u_id me)) ;;;
         socket_leave (socket_id c) room ;;;
         remainingCount <- redis.scard (participants_key room) ;;
         (if remainingCount =? 0
          then deleteRoom room
          else
            emit (ToRoomExcept room (socket_id c)) "participant_left"
              (JObj [("userId", JStr (u_id me)); ("userName", JStr (u_name me))]) ;;;
            roomData <- getRoomData room ;;
            (match roomData with
             | Some r =>
                 if bool_decide (r_field r "hostId" = Some (u_id me))
                 then
                   participants <- getRoomParticipants room ;;
                   match participants with
                   | newHost :: _ =>
                       redis.hset (room_key room) "hostId" (p_id newHost) ;;;
                       redis.hset (user_key room (p_id newHost)) "isHost" "true" ;;;
                       emit (ToRoom room) "host_changed"
                         (JObj [("newHostId", JStr (p_id newHost));
                                ("newHostName", opt_json (p_data newHost !! "name"))])
                   | [] => ret tt
                   end
                 else ret tt
             | None => ret tt
             end) ;;;
            id <- uuidv4 ;;
            timestamp <- Date_now ;;
            let systemMessage :=
              system_message id (u_name me +:+ " odadan ayrıldı") timestamp in
            redis.rpush (messages_key room) systemMessage ;;;
            emit (ToRoom room) "chat_message" systemMessage) ;;;
         ret (mkConn (socket_id c) None None)
     end)
    (λ _, ret c).

(** socket.on('room:leave') and socket.on('leave_room') *)
Definition on_room_leave (c : Conn) : M Conn := handleLeaveRoom c.
Definition on_leave_room (c : Conn) : M Conn := handleLeaveRoom c.

(** socket.on('disconnect'): Socket.io has taken the socket out of its rooms
    when the event fires. *)
Definition on_disconnect (c : Conn) : M Conn :=
  (λ w, (Ok tt, with_rooms w ((λ ss, ss ∖ {[socket_id c]}) <$> io_rooms w))) ;;;
  handleLeaveRoom c.

Record ChatNsData := mkChatNsData {
  cn_roomId : string;
  cn_message : JVal
}.

(** socket.on('chat:message') *)
Definition on_chat_message_ns (c : Conn) (data : ChatNsData) : M Conn :=
  try_catch
    (match bound_room c with
     | None => ret tt
     | Some _ =>
         let roomId := cn_roomId data in
         emit (ToRoomExcept roomId (socket_id c)) "chat:message" (cn_message data) ;;;
         redis.rpush (messages_key roomId) (cn_message data) ;;;
         redis.ltrim (messages_key roomId) (-100) (-1)
     end)
    (λ _, ret tt) ;;;
  ret c.

Record MediaNsData := mkMediaNsData {
  mn_roomId : string;
  mn_mediaType : string;
  mn_mediaUrl : string
}.

(** socket.on('media:change') *)
Definition on_media_change_ns (c : Conn) (data : MediaNsData) : M Conn :=
  try_catch
    (match bound_room c with
     | None => ret tt
     | Some _ =>
         let roomId := mn_roomId data in
         redis.hmset (room_key roomId)
           [("mediaType", mn_mediaType data); ("mediaUrl", mn_mediaUrl data);
            ("currentTime", "0"); ("isPlaying", "false")] ;;;
         emit (ToRoomExcept roomId (socket_id c)) "media:change"
           (JObj [("mediaType", JStr (mn_mediaType data));
                  ("mediaUrl", JStr (mn_mediaUrl data))])
     end)
    (λ _, ret tt) ;;;
  ret c.

Record SeekData := mkSeekData { sk_currentTime : option string }.

(** socket.on('seek') *)
Definition on_seek (c : Conn) (data : SeekData) : M Conn :=
  try_catch
    (match bound c with
     | None => ret tt
     | Some (room, cu) =>
         now <- Date_now ;;
         currentTime <- toString (sk_currentTime data) ;;
         redis.hmset (room_key room)
           [("currentTime", currentTime); ("lastSync", num_str now)] ;;;
         emit (ToRoom room) "seek_sync"
           (JObj [("currentTime", JNum currentTime);
                  ("seekedBy", JStr (u_name (cu_user cu)));
                  ("timestamp", JNum (num_str now))])
     end)
    (λ _, ret tt) ;;;
  ret c.

(** socket.on('request_sync') *)
Definition on_request_sync (c : Conn) : M Conn :=
  try_catch
    (match bound_room c with
     | None => ret tt
     | Some currentRoom =>
         room <- getRoomData currentRoom ;;
         match room with
         | Some room =>
             timestamp <- Date_now ;;
             emit (ToSender (socket_id c)) "sync_response"
               (JObj [("isPlaying", JBool (r_isPlaying room));
                      ("currentTime", JNum (default "0" (r_field room "currentTime")));
                      ("mediaType", opt_json (r_field room "mediaType"));
                      ("mediaUrl", opt_json (r_field room "mediaUrl"));
                      ("timestamp", JNum (num_str timestamp))])
         | None => ret tt
         end
     end)
    (λ _, ret tt) ;;;
  ret c.

(** [String.prototype.trim] *)
Fixpoint trim_end (s : string) : string :=
  match s with
  | EmptyString => EmptyString
  | String ch s' =>
      let t := trim_end s' in
      if negb (nonempty t) && is_js_space ch then EmptyString else String ch t
  end.

Definition trim (s : string) : string := trim_end (trim_start s).

Record ChatData := mkChatData { cd_text : option string }.

(** socket.on('chat_message') *)
Definition on_chat_message (c : Conn) (data : ChatData) : M Conn :=
  try_catch
    (match bound c with
     | None => ret tt
     | Some (room, cu) =>
         let text := default "" (cd_text data) in
         if negb (truthy (cd_text data)) || (String.length (trim text) =? 0)%nat
         then ret tt
         else if (500 <? String.length text)%nat then ret tt
         else
           id <- uuidv4 ;;
           timestamp <- Date_now ;;
           let message :=
             JObj [("id", JStr id); ("type", JStr "user");
                   ("userId", JStr (u_id (cu_user cu)));
                   ("userName", JStr (u_name (cu_user cu)));
                   ("userAvatar", JStr (u_avatar (cu_user cu)));
                   ("text", JStr (trim text));
                   ("timestamp", JNum (num_str timestamp))] in
           redis.rpush (messages_key room) message ;;;
           redis.ltrim (messages_key room) (-100) (-1) ;;;
           emit (ToRoom room) "chat_message" message
     end)
    (λ _, ret tt) ;;;
  ret c.

(** socket.on('typing_start') and socket.on('typing_stop') *)
Definition on_typing_start (c : Conn) : M Conn :=
  match bound c with
  | None => ret c
  | Some (room, cu) =>
      emit (ToRoomExcept room (socket_id c)) "user_typing"
        (JObj [("user", current_user_json cu)]) ;;;
      ret c
  end.

Definition on_typing_stop (c : Conn) : M Conn :=
  match bound c with
  | None => ret c
  | Some (room, cu) =>
      emit (ToRoomExcept room (socket_id c)) "user_stopped_typing"
        (JObj [("userId", JStr (u_id (cu_user cu)))]) ;;;
      ret c
  end.

(** ** Cleanup tasks *)

Definition is_code_char (ch : ascii) : bool :=
  let n := Ascii.nat_of_ascii ch in
  ((65 <=? n)%nat && (n <=? 90)%nat) || ((48 <=? n)%nat && (n <=? 57)%nat).

Fixpoint all_chars (f : ascii → bool) (s : string) : bool :=
  match s with
  | EmptyString => true
  | String ch s' => f ch && all_chars f s'
  end.

Fixpoint strip_prefix (p s : string) : option string :=
  match p, s with
  | EmptyString, _ => Some s
  | String a p', String b s' => if Ascii.eqb a b then strip_prefix p' s' else None
  | String _ _, EmptyString => None
  end.

(** [key.match(/^room:([A-Z0-9]{6})$/)] *)
Definition match_room_key (key : string) : option string :=
  match strip_prefix "room:" key with
  | Some roomId =>
      if (String.length roomId =? 6)%nat && all_chars is_code_char roomId
      then Some roomId else None
  | None => None
  end.

Definition sweep_room (roomId : string) : M unit :=
  participantCount <- redis.scard (participants_key roomId) ;;
  room <- getRoomData roomId ;;
  match room with
  | Some room =>
      if participantCount =? 0
      then
        now <- Date_now ;;
        match r_createdAt room with
        | Some createdAt =>
            let age := now - createdAt in
            if config.idleTimeout <? age then deleteRoom roomId else ret tt
        | None => ret tt
        end
      else ret tt
  | None => ret tt
  end.

(** The body of the [setInterval] callback. *)
Definition cleanup : M unit :=
  try_catch
    (keys <- redis.keys "room:" ;;
     let roomIds := remove_dups (omap match_room_key keys) in
     for_each roomIds sweep_room)
    (λ _, ret tt).

Definition cleanup_period_ms : Z := 300000.

(** ** Functions of the world used in the statements *)

(** The world with further commands in its log and nothing else changed. *)
Definition add_log (w : World) (cmds : list Cmd) : World :=
  mkWorld (store w) (io_rooms w) (redis_log w ++ cmds) (outbox w) (clock w)
          (uuids w) (random_ix w) (random_pos w).

(** The participants that [getRoomParticipants] collects, as a function of
    the store. *)
Fixpoint collect_pure (s : Store) (roomId : string) (ids : list string)
    : list Participant :=
  match ids with
  | [] => []
  | odaId :: ids' =>
      let userData := st_hgetall s (user_key roomId odaId) in
      if truthy (userData !! "id")
      then participant_of_hash userData :: collect_pure s roomId ids'
      else collect_pure s roomId ids'
  end.

Definition member_ids (s : Store) (roomId : string) : list string :=
  elements (st_smembers s (participants_key roomId)).

Definition listing (s : Store) (roomId : string) : list Participant :=
  js_sort (collect_pure s roomId (member_ids s roomId)).

Definition collect_log (roomId : string) (ids : list string) : list Cmd :=
  (λ odaId, HGETALL (user_key roomId odaId)) <$> ids.

(** A computation is quiet when it returns normally and changes neither the
    store, nor the Socket.io rooms, nor the outbox, nor the clock. *)
Definition quiet {A} (m : M A) : Prop :=
  ∀ w, ∃ a w', m w = (Ok a, w') ∧ store w' = store w ∧ outbox w' = outbox w
               ∧ io_rooms w' = io_rooms w ∧ clock w' = clock w.

Definition writes_field (f : string) (fields : list (string * string)) : bool :=
  bool_decide (is_Some (assoc f fields)).

(** A command is a sound playback write when, if it sets [currentTime] or
    [isPlaying], it sets [lastSync] as well. *)
Definition sound_playback_write (cmd : Cmd) : bool :=
  match cmd with
  | HMSET _ fields =>
      negb (writes_field "currentTime" fields || writes_field "isPlaying" fields)
      || writes_field "lastSync" fields
  | HSET _ f _ =>
      negb (bool_decide (f = "currentTime") || bool_decide (f = "isPlaying"))
  | _ => true
  end.

(** The commands a computation issues from a world. *)
Definition issued {A} (m : M A) (w : World) : list Cmd :=
  drop (length (redis_log w)) (redis_log (snd (m w))).

(** Running [m] relates the world before to the world after by [R]. *)
Definition steps (R : relation World) {A} (m : M A) : Prop :=
  ∀ w, R w (snd (m w)).

(** The commands added to the log are all sound playback writes. *)
Definition sound_log : relation World :=
  λ w w', ∃ cmds, redis_log w' = redis_log w ++ cmds
                  ∧ Forall (λ cmd, sound_playback_write cmd = true) cmds.

(** The event a handler has just put last in the outbox reaches [who]. *)
Definition broadcasts {A} (m : M A) (w : World) (event : string)
    (who : gset string) : Prop :=
  ∃ e, outbox (snd (m w)) = outbox w ++ [e]
       ∧ e_event e = event
       ∧ recipients (snd (m w)) (e_target e) = who.

(** A participant is dated when its joinedAt parsed to a number. *)
Definition dated (p : Participant) : Prop := is_Some (p_joinedAt p).

(** [a] joined no later than [b]. *)
Definition earlier (a b : Participant) : Prop :=
  ∃ x y, p_joinedAt a = Some x ∧ p_joinedAt b = Some y ∧ x ≤ y.

(** Member ids whose user record is missing or carries no id. *)
Definition missing_records (s : Store) (roomId : string) : list string :=
  filter (λ odaId, truthy (st_hgetall s (user_key roomId odaId) !! "id") = false)
         (member_ids s roomId).

Definition get_count (r : Res Response) : option Z :=
  match r with
  | Ok {| status := 200; body := BRoomInfo _ n |} => Some n
  | _ => None
  end.

Definition validate_count (r : Res Response) : option Z :=
  match r with
  | Ok {| status := 200; body := BValid n _ |} => Some n
  | _ => None
  end.

(** The store once the leaving participant has been taken out of the
    membership set and its user record deleted. *)
Definition after_removal (s : Store) (room : string) (me : string) : Store :=
  st_del (st_srem s (participants_key room) me) (user_key room me).

(** Time passes. *)
Definition tick (ms : Z) (w : World) : World :=
  mkWorld (store w) (io_rooms w) (redis_log w) (outbox w) (clock w + ms)
          (uuids w) (random_ix w) (random_pos w).

(** A room id that the key pattern of the sweep accepts. *)
Definition is_code (roomId : string) : bool :=
  (String.length roomId =? 6)%nat && all_chars is_code_char roomId.

(** What the sweep decides for a room, as a function of the store. *)
Definition stale (s : Store) (now : Z) (roomId : string) : bool :=
  match room_of_hash (st_hgetall s (room_key roomId)) with
  | Some room =>
      (st_scard s (participants_key roomId) =? 0)
      && match r_createdAt room with
         | Some createdAt => config.idleTimeout <? now - createdAt
         | None => false
         end
  | None => false
  end.

(** What [deleteRoom] removes for a room that has no member. *)
Definition delete_room_keys (s : Store) (roomId : string) : Store :=
  st_del (st_del (st_del s (room_key roomId)) (participants_key roomId))
         (messages_key roomId).

(** One iteration of the sweep, on the store. *)
Definition swept (now : Z) (s : Store) (roomId : string) : Store :=
  if stale s now roomId then delete_room_keys s roomId else s.

(** The three values stored for a room: record, membership set, history. *)
Definition room_view (s : Store) (roomId : string)
    : gmap string string * gset string * list JVal :=
  (st_hgetall s (room_key roomId), st_smembers s (participants_key roomId),
   st_list s (messages_key roomId)).

Definition no_room : gmap string string * gset string * list JVal := (∅, ∅, []).

(** The world with another store, after a change no handler made. *)
Definition set_store (w : World) (s : Store) : World :=
  mkWorld s (io_rooms w) (redis_log w) (outbox w) (clock w) (uuids w)
          (random_ix w) (random_pos w).

Definition dated_store (s : Store) : Prop :=
  ∀ roomId odaId,
    truthy (st_hgetall s (user_key roomId odaId) !! "id") = true →
    is_Some (parseInt_field (st_hgetall s (user_key roomId odaId) !! "joinedAt")).

Definition dated_rel : relation World :=
  λ w w', dated_store (store w) → dated_store (store w').

(** ** The server as a transition system *)

Inductive Event :=
  | EConnect (sid : string)
  | EJoinRoom (sid : string) (data : JoinData)
  | ERoomJoin (sid : string) (data : JoinData)
  | ELeaveRoom (sid : string)
  | ERoomLeave (sid : string)
  | EDisconnect (sid : string)
  | EMediaChange (sid : string) (data : MediaData)
  | EMediaChangeNs (sid : string) (data : MediaNsData)
  | EPlaybackState (sid : string) (data : PlaybackData)
  | ESyncPlay (sid : string) (data : SyncData)
  | ESyncPause (sid : string) (data : SyncData)
  | ESyncSeek (sid : string) (data : SyncData)
  | ESyncRequest (sid : string)
  | ESyncState (sid : string) (data : SyncStateData)
  | ESeek (sid : string) (data : SeekData)
  | ERequestSync (sid : string)
  | EChatMessage (sid : string) (data : ChatData)
  | EChatMessageNs (sid : string) (data : ChatNsData)
  | ETypingStart (sid : string)
  | ETypingStop (sid : string)
  | EApiGet (roomId : string)
  | EApiCreate (b : CreateBody)
  | EApiValidate (roomId : string)
  | ECleanup
  | ETick (ms : Z)
  | EExpire (key : string).

Record Server := mkServer {
  world : World;
  conns : gmap string Conn
}.

(** The handler an event of a connected socket runs. *)
Definition socket_handler (ev : Event) : option (string * (Conn → M Conn)) :=
  match ev with
  | EJoinRoom sid d => Some (sid, λ c, on_join_room c d)
  | ERoomJoin sid d => Some (sid, λ c, on_room_join c d)
  | ELeaveRoom sid => Some (sid, on_leave_room)
  | ERoomLeave sid => Some (sid, on_room_leave)
  | EDisconnect sid => Some (sid, on_disconnect)
  | EMediaChange sid d => Some (sid, λ c, on_media_change c d)
  | EMediaChangeNs sid d => Some (sid, λ c, on_media_change_ns c d)
  | EPlaybackState sid d => Some (sid, λ c, on_playback_state c d)
  | ESyncPlay sid d => Some (sid, λ c, on_sync_play c d)
  | ESyncPause sid d => Some (sid, λ c, on_sync_pause c d)
  | ESyncSeek sid d => Some (sid, λ c, on_sync_seek c d)
  | ESyncRequest sid => Some (sid, on_sync_request)
  | ESyncState sid d => Some (sid, λ c, on_sync_state c d)
  | ESeek sid d => Some (sid, λ c, on_seek c d)
  | ERequestSync sid => Some (sid, on_request_sync)
  | EChatMessage sid d => Some (sid, λ c, on_chat_message c d)
  | EChatMessageNs sid d => Some (sid, λ c, on_chat_message_ns c d)
  | ETypingStart sid => Some (sid, on_typing_start)
  | ETypingStop sid => Some (sid, on_typing_stop)
  | _ => None
  end.

(** Redis drops a key once its deadline has passed. *)
Definition expire_key (key : string) (w : World) : World :=
  match ttls (store w) !! key with
  | Some deadline =>
      if deadline <=? clock w then set_store w (st_del (store w) key) else w
  | None => w
  end.

Definition step (srv : Server) (ev : Event) : Server :=
  match socket_handler ev with
  | Some (sid, handler) =>
      match conns srv !! sid with
      | Some c =>
          let '(r, w') := handler c (world srv) in
          let conns' :=
            match ev, r with
            | EDisconnect _, _ => delete sid (conns srv)
            | _, Ok c' => <[sid := c']> (conns srv)
            | _, Throw _ => conns srv
            end in
          mkServer w' conns'
      | None => srv
      end
  | None =>
      match ev with
      | EConnect sid =>
          match on_connection sid (world srv) with
          | (Ok c, w') => mkServer w' (<[sid := c]> (conns srv))
          | (Throw _, w') => mkServer w' (conns srv)
          end
      | EApiGet roomId => mkServer (snd (api_room_get roomId (world srv))) (conns srv)
      | EApiCreate b => mkServer (snd (api_room_create b (world srv))) (conns srv)
      | EApiValidate roomId =>
          mkServer (snd (api_room_validate roomId (world srv))) (conns srv)
      | ECleanup => mkServer (snd (cleanup (world srv))) (conns srv)
      | ETick ms => mkServer (tick (Z.max 0 ms) (world srv)) (conns srv)
      | EExpire key => mkServer (expire_key key (world srv)) (conns srv)
      | _ => srv
      end
  end.

Definition boot (now : Z) (rnd : nat → nat) : Server :=
  mkServer (mkWorld empty_store ∅ [] [] now 0 rnd 0) ∅.

Definition run (srv : Server) (evs : list Event) : Server := foldl step srv evs.

Definition host_count (ps : list Participant) : nat :=
  length (filter (λ p, p_isHost p = true) ps).

(** ** Further functions of the world used in the statements *)

(** The glyphs the room-code alphabet leaves out. *)
Definition ambiguous_glyph (ch : ascii) : bool :=
  Ascii.eqb ch "0" || Ascii.eqb ch "O" || Ascii.eqb ch "1" || Ascii.eqb ch "I".

Definition alphabet_char (ch : ascii) : bool :=
  is_code_char ch && negb (ambiguous_glyph ch).

Definition is_EXISTS (cmd : Cmd) : bool :=
  match cmd with EXISTS _ => true | _ => false end.

(** Events whose handler acts only for a socket bound to a room. *)
Definition needs_binding (ev : Event) : bool :=
  match ev with
  | EJoinRoom _ _ | ERoomJoin _ _ | EDisconnect _ => false
  | _ => true
  end.

(** What the loop of [deleteRoom] does to the store: the user records of
    the given member ids are deleted. *)
Definition del_users (s : Store) (roomId : string) (ids : list string) : Store :=
  foldl (λ s odaId, st_del s (user_key roomId odaId)) s ids.

(** The store after [deleteRoom]. *)
Definition deleted_room (s : Store) (roomId : string) : Store :=
  delete_room_keys (del_users s roomId (member_ids s roomId)) roomId.

(** The commands [deleteRoom] issues. *)
Definition deleteRoom_log (s : Store) (roomId : string) : list Cmd :=
  SMEMBERS (participants_key roomId)
  :: ((λ odaId, DEL (user_key roomId odaId)) <$> member_ids s roomId)
  ++ [DEL (room_key roomId); DEL (participants_key roomId);
      DEL (messages_key roomId)].

(** The status of a response, 0 when the handler threw. *)
Definition status_of (r : Res Response) : Z :=
  match r with Ok resp => status resp | Throw _ => 0 end.

(** Two worlds that differ at most in their Socket.io rooms. *)
Definition same_but_rooms (w1 w2 : World) : Prop :=
  store w1 = store w2 ∧ redis_log w1 = redis_log w2 ∧ outbox w1 = outbox w2
  ∧ clock w1 = clock w2 ∧ uuids w1 = uuids w2.

Definition is_EXPIRE (cmd : Cmd) : bool :=
  match cmd with EXPIRE _ _ => true | _ => false end.

(** The commands added to the log all satisfy [P]. *)
Definition log_all (P : Cmd → bool) : relation World :=
  λ w w', ∃ cmds, redis_log w' = redis_log w ++ cmds
                  ∧ Forall (λ cmd, P cmd = true) cmds.

Definition no_EXPIRE : relation World := log_all (λ cmd, negb (is_EXPIRE cmd)).

(** The one socket event whose handler arms the room's expiry. *)
Definition arms_expiry (ev : Event) : bool :=
  match ev with EJoinRoom _ _ => true | _ => false end.

(** Neither the store nor the Socket.io rooms have changed. *)
Definition read_only : relation World :=
  λ w w', store w' = store w ∧ io_rooms w' = io_rooms w.

(** No event was sent, no socket moved and the clock did not advance. *)
Definition silent : relation World :=
  λ w w', outbox w' = outbox w ∧ io_rooms w' = io_rooms w ∧ clock w' = clock w.

(** ** Scenarios *)

(** The failing request of C1, run on an empty store. *)
Definition world0 : World := mkWorld empty_store ∅ [] [] 1700000000000 0 (λ n, n) 0.

(** A room filled through room:join by [n] users u0, u1, ... on sockets
    s0, s1, ... *)
Definition member_name (n : nat) : string := "u" +:+ num_str (Z.of_nat n).
Definition member_socket (n : nat) : Conn :=
  mkConn ("s" +:+ num_str (Z.of_nat n)) None None.
Definition member (n : nat) : User := mkUser (member_name n) "guest" "x" false.

Definition crowd (roomId : string) (n : nat) : World :=
  foldl (λ w i, snd (on_room_join (member_socket i)
                                  (mkJoinData roomId (Some (member i))) w))
        world0 (seq 0 n).

(** One participant in ROOM01 who has posted [n] chat messages. *)
Definition alice_conn : Conn :=
  mkConn "s0" (Some "ROOM01") (Some (mkCurrentUser (member 0) None None)).

Definition chatty (n : nat) : World :=
  foldl (λ w _, snd (on_chat_message alice_conn (mkChatData (Some "hi")) w))
        (crowd "ROOM01" 1) (seq 0 n).

Definition empty_text_message : JVal :=
  JObj [("id", JStr "msg_1"); ("type", JStr "user"); ("userName", JStr "guest");
        ("text", JStr ""); ("timestamp", JNum "1700000000001")].

(** Two rooms whose user keys collide: user 'b:c' of room 'a' and user 'c'
    of room 'a:b' share the key user:a:b:c.  The second leaves. *)
Definition colliding_rooms : World :=
  let w1 := snd (on_room_join (mkConn "s1" None None)
                   (mkJoinData "a" (Some (mkUser "b:c" "Ann" "x" true))) world0) in
  let bob := mkConn "s2" (Some "a:b")
               (Some (mkCurrentUser (mkUser "c" "Bob" "y" true) None None)) in
  let w2 := snd (on_room_join (mkConn "s2" None None)
                   (mkJoinData "a:b" (Some (mkUser "c" "Bob" "y" true))) w1) in
  snd (on_room_leave bob w2).

(** Ann opens AB3XY9 as host; Bob and then Cem join; each a second apart. *)
Definition ann : User := mkUser "ann" "Ann" "x" true.
Definition bob : User := mkUser "bob" "Bob" "y" false.
Definition cem : User := mkUser "cem" "Cem" "z" false.
Definition ann_conn : Conn :=
  mkConn "sa" (Some "AB3XY9") (Some (mkCurrentUser ann None None)).

Definition party : World :=
  let w1 := snd (on_room_join (mkConn "sa" None None)
                   (mkJoinData "AB3XY9" (Some ann)) world0) in
  let w2 := snd (on_room_join (mkConn "sb" None None)
                   (mkJoinData "AB3XY9" (Some bob)) (tick 1000 w1)) in
  snd (on_room_join (mkConn "sc" None None)
         (mkJoinData "AB3XY9" (Some cem)) (tick 1000 w2)).

(** Ann opens AB3XY9 and plays for two hours less a minute; her leave then
    stops halfway (the membership entry and her record are gone, the room is
    not deleted); the sweep runs a minute later. *)
Definition abandoned : World :=
  let w1 := snd (on_room_join (mkConn "sa" None None)
                   (mkJoinData "AB3XY9" (Some ann)) world0) in
  let w2 := snd (on_sync_play ann_conn (mkSyncData (Some "7140.5"))
                   (tick (2 * 3600000 - 60000) w1)) in
  tick 60000 (set_store w2 (after_removal (store w2) "AB3XY9" "ann")).

(** The same room, swept half an hour after it was opened. *)
Definition young : World :=
  let w1 := snd (on_room_join (mkConn "sa" None None)
                   (mkJoinData "AB3XY9" (Some ann)) world0) in
  tick 1800000 (set_store w1 (after_removal (store w1) "AB3XY9" "ann")).

(** Bob joins a code nobody opened: a room with one participant and no
    host. *)
Definition hostless : Server :=
  run (boot 1700000000000 (λ n, n))
      [EConnect "sb"; ERoomJoin "sb" (mkJoinData "AB3XY9" (Some bob))].

(** Ann opens AB3XY9 as host and Bob joins; Ann's connection drops, Bob is
    elected; Ann reconnects and her client joins again as host. *)
Definition reunion : Server :=
  run (boot 1700000000000 (λ n, n))
      [EConnect "sa"; ERoomJoin "sa" (mkJoinData "AB3XY9" (Some ann)); ETick 1000;
       EConnect "sb"; ERoomJoin "sb" (mkJoinData "AB3XY9" (Some bob)); ETick 1000;
       EDisconnect "sa"; ETick 1000;
       EConnect "sa2"; ERoomJoin "sa2" (mkJoinData "AB3XY9" (Some ann))].

(** Ann opens AB3XY9 as host; Bob and then Cem join; each a second apart. *)
Definition party_events : list Event :=
  [EConnect "sa"; ERoomJoin "sa" (mkJoinData "AB3XY9" (Some ann)); ETick 1000;
   EConnect "sb"; ERoomJoin "sb" (mkJoinData "AB3XY9" (Some bob)); ETick 1000;
   EConnect "sc"; ERoomJoin "sc" (mkJoinData "AB3XY9" (Some cem))].

Definition party_server : Server := run (boot 1700000000000 (λ n, n)) party_events.

(** * Properties *)

(** ** Numbers and their renderings *)

Lemma digits_prefix_string_of_uint (d : Decimal.uint) :
  digits_prefix (NilEmpty.string_of_uint d) = d.
Proof. induction d; simpl; congruence. Qed.

Lemma parse_digits_to_uint (p : positive) :
  parse_digits (NilEmpty.string_of_uint (Pos.to_uint p)) = Some (Z.pos p).
Proof.
  unfold parse_digits. rewrite digits_prefix_string_of_uint.
  pose proof (DecimalPos.Unsigned.to_uint_nonnil p) as Hnil.
  pose proof (DecimalPos.Unsigned.of_to p) as Hof.
  destruct (Pos.to_uint p) eqn:E; try congruence;
    unfold N.of_uint; rewrite Hof; reflexivity.
Qed.

Lemma parse_magnitude_digits (d : Decimal.uint) :
  parse_magnitude (NilEmpty.string_of_uint d)
  = parse_digits (NilEmpty.string_of_uint d).
Proof. destruct d as [|d|d|d|d|d|d|d|d|d|d]; try reflexivity; by destruct d. Qed.

Lemma parseInt_digits (d : Decimal.uint) :
  d ≠ Decimal.Nil →
  parseInt (NilEmpty.string_of_uint d) = parse_digits (NilEmpty.string_of_uint d).
Proof.
  intros Hd. rewrite <- parse_magnitude_digits.
  destruct d; try congruence; reflexivity.
Qed.

(** Reading back what [toString] wrote gives the number. *)
Lemma parseInt_num_str (z : Z) : parseInt (num_str z) = Some z.
Proof.
  pose proof DecimalPos.Unsigned.to_uint_nonnil as Hnil.
  destruct z as [|p|p]; [reflexivity| |]; unfold num_str; simpl.
  - unfold NilZero.string_of_uint.
    destruct (Pos.to_uint p) eqn:E; try (exfalso; eapply Hnil; eassumption);
      rewrite <- E; (rewrite parseInt_digits by apply Hnil);
      apply parse_digits_to_uint.
  - unfold NilZero.string_of_uint.
    destruct (Pos.to_uint p) eqn:E; try (exfalso; eapply Hnil; eassumption);
      rewrite <- E;
      change (parseInt (String "-" (NilEmpty.string_of_uint (Pos.to_uint p))))
        with (Z.opp <$> parse_magnitude (NilEmpty.string_of_uint (Pos.to_uint p)));
      rewrite parse_magnitude_digits, parse_digits_to_uint; reflexivity.
Qed.

(** ** Keys *)

Lemma room_key_not_user_key roomId roomId' odaId :
  room_key roomId ≠ user_key roomId' odaId.
Proof. unfold room_key, user_key. simpl. intros [=]. Qed.

Lemma room_key_inj roomId roomId' :
  room_key roomId = room_key roomId' → roomId = roomId'.
Proof. unfold room_key. simpl. by intros [=]. Qed.

(** ** Running the handlers: reads leave the world alone but for the log *)

Lemma add_log_add_log w a b : add_log (add_log w a) b = add_log w (a ++ b).
Proof. unfold add_log; simpl. by rewrite app_assoc. Qed.

Lemma with_store_same w c : with_store w (store w) c = add_log w [c].
Proof. reflexivity. Qed.

Lemma collect_participants_run roomId ids acc w :
  collect_participants roomId ids acc w
  = (Ok (acc ++ collect_pure (store w) roomId ids),
     add_log w (collect_log roomId ids)).
Proof.
  revert acc w. induction ids as [|odaId ids IH]; intros acc w; simpl.
  - unfold ret, add_log. rewrite !app_nil_r. by destruct w.
  - unfold bind at 1. unfold redis.hgetall at 1. rewrite with_store_same.
    destruct (truthy _) eqn:E; rewrite IH; simpl; rewrite add_log_add_log.
    + by rewrite <- app_assoc.
    + done.
Qed.

Lemma getRoomParticipants_run roomId w :
  getRoomParticipants roomId w
  = (Ok (listing (store w) roomId),
     add_log w (SMEMBERS (participants_key roomId)
                :: collect_log roomId (member_ids (store w) roomId))).
Proof.
  unfold getRoomParticipants, bind, redis.smembers.
  rewrite with_store_same, collect_participants_run. simpl.
  by rewrite add_log_add_log.
Qed.

Lemma getRoomData_run roomId w :
  getRoomData roomId w
  = (Ok (room_of_hash (st_hgetall (store w) (room_key roomId))),
     add_log w [HGETALL (room_key roomId)]).
Proof. reflexivity. Qed.

Lemma quiet_ret {A} (a : A) : quiet (ret a).
Proof. intros w. by exists a, w. Qed.

Lemma quiet_bind {A B} (m : M A) (k : A → M B) :
  quiet m → (∀ a, quiet (k a)) → quiet (bind m k).
Proof.
  intros Hm Hk w. destruct (Hm w) as (a & w1 & E1 & ? & ? & ? & ?).
  destruct (Hk a w1) as (b & w2 & E2 & ? & ? & ? & ?).
  exists b, w2. unfold bind. rewrite E1, E2. repeat split; congruence.
Qed.

Lemma quiet_random_index : quiet random_index.
Proof. intros w. by eexists _, _. Qed.

Lemma quiet_exists k : quiet (redis.exists_ k).
Proof. intros w. by eexists _, _. Qed.

Lemma quiet_generateRoomCode_loop n code : quiet (generateRoomCode_loop n code).
Proof.
  revert code. induction n as [|n IH]; intros code; simpl.
  - apply quiet_ret.
  - apply quiet_bind; [apply quiet_random_index | intros i; apply IH].
Qed.

Lemma quiet_room_code_loop fuel attempts : quiet (room_code_loop fuel attempts).
Proof.
  revert attempts. induction fuel as [|fuel IH]; intros attempts; simpl.
  - apply quiet_ret.
  - apply quiet_bind; [apply quiet_generateRoomCode_loop | intros roomId].
    apply quiet_bind; [apply quiet_exists | intros e].
    destruct (negb e); [apply quiet_ret |].
    destruct (attempts + 1 <? 10); [apply IH | apply quiet_ret].
Qed.

(** ** Room creation *)

Lemma odaId_unbound b roomId attempts now :
  assoc "odaId" (create_scope b roomId attempts now) = None.
Proof. reflexivity. Qed.

(** C1.  POST /api/room/create never creates a room.  Whatever the body and
    the world, the endpoint answers with an error and leaves the store as it
    was: with a non-empty userId and userName the status is 500, because
    building the room record reads the identifier [odaId], which nothing
    binds, and the handler's catch turns the ReferenceError into
    'Internal server error' before any write. *)
Theorem create_room_always_fails (b : CreateBody) (w : World) :
  ∃ resp w',
    api_room_create b w = (Ok resp, w')
    ∧ store w' = store w
    ∧ status resp = (if truthy (cb_userId b) && truthy (cb_userName b)
                     then 500 else 400).
Proof.
  unfold api_room_create, try_catch.
  destruct (truthy (cb_userId b)); destruct (truthy (cb_userName b));
    cbn [negb orb andb]; try (by eexists _, _).
  unfold bind at 1.
  destruct (quiet_room_code_loop 10 0 w) as ([roomId attempts] & w1 & -> & Hs & _).
  destruct (10 <=? attempts); [by eexists _, _ |].
  unfold bind, Date_now, resolve. rewrite odaId_unbound.
  unfold throw, ret. by eexists _, _.
Qed.

Example create_room_fails_on_valid_body :
  let '(r, w') := api_room_create (mkCreateBody (Some "u1") (Some "Ann") None) world0 in
  r = Ok (mkResponse 500 (BError "Internal server error"))
  ∧ hashes (store w') = ∅.
Proof. vm_compute. done. Qed.

(** ** What each Redis command does to each family of the store *)

Section store_facts.
Context (s : Store) (k k' : string).

Lemma hgetall_hmset fields :
  st_hgetall (st_hmset s k fields) k'
  = if decide (k = k') then list_to_map fields ∪ st_hgetall s k
    else st_hgetall s k'.
Proof.
  unfold st_hgetall at 1, st_hmset; simpl. case_decide; subst.
  - by rewrite lookup_insert_eq.
  - by rewrite lookup_insert_ne.
Qed.

Lemma hgetall_hset f v :
  st_hgetall (st_hset s k f v) k'
  = if decide (k = k') then <[f := v]> (st_hgetall s k) else st_hgetall s k'.
Proof.
  unfold st_hset. rewrite hgetall_hmset. case_decide; [|done].
  simpl. by rewrite <- insert_union_l, (left_id_L ∅ (∪)).
Qed.

Lemma hgetall_del :
  st_hgetall (st_del s k) k' = if decide (k = k') then ∅ else st_hgetall s k'.
Proof.
  unfold st_hgetall, st_del; simpl. case_decide; subst.
  - by rewrite lookup_delete_eq.
  - by rewrite lookup_delete_ne.
Qed.

Lemma hgetall_sadd x : st_hgetall (st_sadd s k x) k' = st_hgetall s k'.
Proof. reflexivity. Qed.
Lemma hgetall_srem x : st_hgetall (st_srem s k x) k' = st_hgetall s k'.
Proof. reflexivity. Qed.
Lemma hgetall_rpush v : st_hgetall (st_rpush s k v) k' = st_hgetall s k'.
Proof. reflexivity. Qed.
Lemma hgetall_ltrim a b : st_hgetall (st_ltrim s k a b) k' = st_hgetall s k'.
Proof. reflexivity. Qed.
Lemma hgetall_expire d : st_hgetall (st_expire s k d) k' = st_hgetall s k'.
Proof. unfold st_expire. by destruct (st_exists s k). Qed.

Lemma smembers_sadd x :
  st_smembers (st_sadd s k x) k'
  = if decide (k = k') then {[x]} ∪ st_smembers s k else st_smembers s k'.
Proof.
  unfold st_smembers at 1, st_sadd; simpl. case_decide; subst.
  - by rewrite lookup_insert_eq.
  - by rewrite lookup_insert_ne.
Qed.

Lemma smembers_srem x :
  st_smembers (st_srem s k x) k'
  = if decide (k = k') then st_smembers s k ∖ {[x]} else st_smembers s k'.
Proof.
  unfold st_smembers at 1, st_srem; simpl. case_decide; subst.
  - by rewrite lookup_insert_eq.
  - by rewrite lookup_insert_ne.
Qed.

Lemma smembers_del :
  st_smembers (st_del s k) k' = if decide (k = k') then ∅ else st_smembers s k'.
Proof.
  unfold st_smembers, st_del; simpl. case_decide; subst.
  - by rewrite lookup_delete_eq.
  - by rewrite lookup_delete_ne.
Qed.

Lemma smembers_hmset fields : st_smembers (st_hmset s k fields) k' = st_smembers s k'.
Proof. reflexivity. Qed.
Lemma smembers_hset f v : st_smembers (st_hset s k f v) k' = st_smembers s k'.
Proof. reflexivity. Qed.
Lemma smembers_rpush v : st_smembers (st_rpush s k v) k' = st_smembers s k'.
Proof. reflexivity. Qed.
Lemma smembers_ltrim a b : st_smembers (st_ltrim s k a b) k' = st_smembers s k'.
Proof. reflexivity. Qed.
Lemma smembers_expire d : st_smembers (st_expire s k d) k' = st_smembers s k'.
Proof. unfold st_expire. by destruct (st_exists s k). Qed.

Lemma list_rpush v :
  st_list (st_rpush s k v) k'
  = if decide (k = k') then st_list s k ++ [v] else st_list s k'.
Proof.
  unfold st_list at 1, st_rpush; simpl. case_decide; subst.
  - by rewrite lookup_insert_eq.
  - by rewrite lookup_insert_ne.
Qed.

Lemma list_ltrim a b :
  st_list (st_ltrim s k a b) k'
  = if decide (k = k') then list_range (st_list s k) a b else st_list s k'.
Proof.
  unfold st_list at 1, st_ltrim; simpl. case_decide; subst.
  - by rewrite lookup_insert_eq.
  - by rewrite lookup_insert_ne.
Qed.

Lemma list_del :
  st_list (st_del s k) k' = if decide (k = k') then [] else st_list s k'.
Proof.
  unfold st_list, st_del; simpl. case_decide; subst.
  - by rewrite lookup_delete_eq.
  - by rewrite lookup_delete_ne.
Qed.

Lemma list_hmset fields : st_list (st_hmset s k fields) k' = st_list s k'.
Proof. reflexivity. Qed.
Lemma list_hset f v : st_list (st_hset s k f v) k' = st_list s k'.
Proof. reflexivity. Qed.
Lemma list_sadd x : st_list (st_sadd s k x) k' = st_list s k'.
Proof. reflexivity. Qed.
Lemma list_srem x : st_list (st_srem s k x) k' = st_list s k'.
Proof. reflexivity. Qed.
Lemma list_expire d : st_list (st_expire s k d) k' = st_list s k'.
Proof. unfold st_expire. by destruct (st_exists s k). Qed.
End store_facts.

Create Rewrite HintDb store.
#[export] Hint Rewrite hgetall_hmset hgetall_hset hgetall_del hgetall_sadd
  hgetall_srem hgetall_rpush hgetall_ltrim hgetall_expire
  smembers_sadd smembers_srem smembers_del smembers_hmset smembers_hset
  smembers_rpush smembers_ltrim smembers_expire
  list_rpush list_ltrim list_del list_hmset list_hset list_sadd list_srem
  list_expire : store.

#[global] Arguments room_key : simpl never.
#[global] Arguments participants_key : simpl never.
#[global] Arguments messages_key : simpl never.
#[global] Arguments user_key : simpl never.
#[global] Arguments st_hmset : simpl never.
#[global] Arguments st_hset : simpl never.
#[global] Arguments st_hgetall : simpl never.
#[global] Arguments st_smembers : simpl never.
#[global] Arguments st_list : simpl never.
#[global] Arguments st_sadd : simpl never.
#[global] Arguments st_srem : simpl never.
#[global] Arguments st_del : simpl never.
#[global] Arguments st_rpush : simpl never.
#[global] Arguments st_ltrim : simpl never.
#[global] Arguments st_expire : simpl never.
#[global] Arguments st_exists : simpl never.
#[global] Arguments st_scard : simpl never.
#[global] Arguments num_str : simpl never.
#[global] Arguments listing : simpl never.
#[global] Arguments member_ids : simpl never.
#[global] Arguments add_log : simpl never.
#[global] Arguments getRoomData : simpl never.
#[global] Arguments getRoomParticipants : simpl never.
#[global] Arguments deleteRoom : simpl never.

Lemma scard_sadd_new s k x :
  x ∉ st_smembers s k → st_scard (st_sadd s k x) k = st_scard s k + 1.
Proof.
  intros Hx. unfold st_scard. rewrite smembers_sadd, decide_True by done.
  rewrite size_union by set_solver. rewrite size_singleton. lia.
Qed.

(** ** Capacity *)

(** The strict join path refuses a full room and touches nothing. *)
Lemma join_room_rejects_when_full c w roomId user room :
  nonempty roomId = true → nonempty (u_id user) = true →
  nonempty (u_name user) = true →
  room_of_hash (st_hgetall (store w) (room_key roomId)) = Some room →
  config.maxParticipants ≤ st_scard (store w) (participants_key roomId) →
  ∃ w', on_join_room c (mkJoinData roomId (Some user)) w = (Ok c, w')
        ∧ store w' = store w
        ∧ io_rooms w' = io_rooms w
        ∧ outbox w' = outbox w ++ [mkEmit (ToSender (socket_id c)) "error"
                                          (error_json "Room is full")].
Proof.
  intros Hr Hi Hn Hroom Hfull. unfold on_join_room, try_catch.
  cbn [jd_roomId jd_user]. rewrite Hr, Hi, Hn. cbn [negb orb].
  unfold bind. rewrite getRoomData_run, Hroom. simpl.
  replace (config.maxParticipants <=? _) with true
    by (symmetry; apply Z.leb_le; exact Hfull).
  by eexists.
Qed.

(** C2.  The room:join path has no capacity check.  When the membership set
    of the room already holds maxParticipants (50) ids and a further user
    joins through room:join, the handler returns normally, the membership
    set grows to 51, the user's record is written, the socket is bound to
    the room, and no error event is sent. *)
Theorem room_join_ignores_capacity c w roomId user :
  st_scard (store w) (participants_key roomId) = config.maxParticipants →
  u_id user ∉ st_smembers (store w) (participants_key roomId) →
  ∃ c' w',
    on_room_join c (mkJoinData roomId (Some user)) w = (Ok c', w')
    ∧ st_scard (store w') (participants_key roomId) = config.maxParticipants + 1
    ∧ st_hgetall (store w') (user_key roomId (u_id user)) !! "id" = Some (u_id user)
    ∧ currentRoom c' = Some roomId
    ∧ ∀ e, e ∈ outbox w' → e ∈ outbox w ∨ e_event e ≠ "error".
Proof.
  intros Hfull Hnew. unfold on_room_join.
  cbn [jd_roomId jd_user the_user fmap option_fmap option_map].
  unfold try_catch, bind.
  cbn [socket_join redis.exists_ redis.hmset redis.sadd Date_now ret emit].
  cbn [store with_rooms with_store].
  destruct (st_exists (store w) (room_key roomId)); simpl;
    rewrite getRoomParticipants_run; simpl;
    match goal with
    | |- context [room_of_hash ?h] => destruct (room_of_hash h) as [room|]
    end; simpl;
    try match goal with |- context [truthy ?h] => destruct (truthy h) end; simpl;
    eexists _, _; (split; [reflexivity|]); simpl;
    unfold st_scard in *;
    autorewrite with store; rewrite ?decide_True by done;
    (split; [rewrite size_union, size_singleton by set_solver; lia|]);
    (split; [by rewrite lookup_union_l'; [|eexists]|]);
    (split; [done|]);
    intros e; rewrite ?elem_of_app, ?list_elem_of_singleton;
    intros He; decompose [or] He; subst; auto.
Qed.

Lemma room_join_ignores_capacity_witness :
  st_scard (store (crowd "ROOM01" 50)) (participants_key "ROOM01")
  = config.maxParticipants
  ∧ ∃ c' w',
      on_room_join (member_socket 50) (mkJoinData "ROOM01" (Some (member 50)))
                   (crowd "ROOM01" 50) = (Ok c', w')
      ∧ st_scard (store w') (participants_key "ROOM01") = config.maxParticipants + 1
      ∧ st_hgetall (store w') (user_key "ROOM01" (u_id (member 50))) !! "id"
        = Some (u_id (member 50))
      ∧ currentRoom c' = Some "ROOM01"
      ∧ ∀ e, e ∈ outbox w' → e ∈ outbox (crowd "ROOM01" 50) ∨ e_event e ≠ "error".
Proof.
  split; [vm_compute; reflexivity|].
  apply room_join_ignores_capacity.
  - vm_compute; reflexivity.
  - apply (bool_decide_unpack _). vm_compute. exact I.
Defined.

(** ** Chat history *)

Lemma list_range_last {A} (l : list A) (n : nat) :
  (0 < n)%nat →
  list_range l (- Z.of_nat n) (-1) = drop (length l - n) l.
Proof.
  intros Hn. unfold list_range.
  replace (- Z.of_nat n <? 0) with true by (symmetry; apply Z.ltb_lt; lia).
  replace (-1 <? 0) with true by reflexivity.
  destruct (decide (length l = 0%nat)) as [E|E].
  - destruct l; [|done]. simpl. destruct (_ <? _); [done|].
    by rewrite drop_nil, take_nil.
  - replace (_ <? _) with false by (symmetry; apply Z.ltb_ge; lia).
    replace (Z.to_nat (Z.max 0 (Z.of_nat (length l) + - Z.of_nat n)))
      with (length l - n)%nat by lia.
    apply take_ge. rewrite length_drop. lia.
Qed.

Lemma length_last_100 {A} (l : list A) :
  length (list_range l (-100) (-1)) = Nat.min (length l) 100.
Proof.
  change (-100) with (- Z.of_nat 100). rewrite list_range_last by lia.
  rewrite length_drop. lia.
Qed.

(** The validated chat path appends and trims to the last 100. *)
Lemma chat_message_trims c w text room cu :
  bound c = Some (room, cu) →
  truthy (Some text) = true → String.length (trim text) ≠ 0%nat →
  (String.length text ≤ 500)%nat →
  ∃ w' message,
    on_chat_message c (mkChatData (Some text)) w = (Ok c, w')
    ∧ st_list (store w') (messages_key room)
      = list_range (st_list (store w) (messages_key room) ++ [message]) (-100) (-1)
    ∧ (length (st_list (store w') (messages_key room)) ≤ 100)%nat.
Proof.
  intros Hb Ht Hne Hlen. unfold on_chat_message, try_catch, bind at 1.
  rewrite Hb. cbn [cd_text default from_option id]. rewrite Ht. cbn [negb orb].
  replace (_ =? 0)%nat with false by (symmetry; by apply Nat.eqb_neq).
  replace (500 <? _)%nat with false by (symmetry; apply Nat.ltb_ge; lia).
  simpl. eexists _, _. split; [reflexivity|]. simpl.
  autorewrite with store. rewrite !decide_True by done.
  split; [reflexivity|]. rewrite length_last_100. lia.
Qed.

(** C5.  The system message of media_change is appended with RPUSH and no
    LTRIM follows.  When the room's history already holds 100 entries and a
    bound participant sends media_change, the history holds 101 entries and
    nothing is evicted: the old entries are all still there, in order. *)
Theorem media_change_exceeds_history_cap c w data room cu :
  bound c = Some (room, cu) →
  length (st_list (store w) (messages_key room)) = 100%nat →
  ∃ w' systemMessage,
    on_media_change c data w = (Ok c, w')
    ∧ st_list (store w') (messages_key room)
      = st_list (store w) (messages_key room) ++ [systemMessage]
    ∧ length (st_list (store w') (messages_key room)) = 101%nat.
Proof.
  intros Hb Hlen. unfold on_media_change, try_catch, bind at 1.
  rewrite Hb. simpl. eexists _, _. split; [reflexivity|]. simpl.
  autorewrite with store. rewrite !decide_True by done.
  split; [reflexivity|]. rewrite length_app, Hlen. reflexivity.
Qed.

Lemma media_change_exceeds_history_cap_witness :
  length (st_list (store (chatty 100)) (messages_key "ROOM01")) = 100%nat
  ∧ ∃ w' systemMessage,
      on_media_change alice_conn (mkMediaData (Some "url") (Some "http://v/a.mp4"))
                      (chatty 100) = (Ok alice_conn, w')
      ∧ st_list (store w') (messages_key "ROOM01")
        = st_list (store (chatty 100)) (messages_key "ROOM01") ++ [systemMessage]
      ∧ length (st_list (store w') (messages_key "ROOM01")) = 101%nat.
Proof.
  split; [vm_compute; reflexivity|].
  eapply media_change_exceeds_history_cap; [reflexivity|].
  vm_compute; reflexivity.
Defined.

(** ** Chat validation *)

(** The validated path drops an invalid text without a trace. *)
Lemma chat_message_rejects_invalid c w data :
  truthy (cd_text data) = false
  ∨ String.length (trim (default "" (cd_text data))) = 0%nat
  ∨ (500 < String.length (default "" (cd_text data)))%nat →
  on_chat_message c data w = (Ok c, w).
Proof.
  intros H. unfold on_chat_message, try_catch, bind at 1.
  destruct (bound c) as [[room cu]|]; [|reflexivity].
  destruct (truthy (cd_text data)); cbn [negb orb];
    [|reflexivity].
  destruct (Nat.eqb_spec (String.length (trim (default "" (cd_text data)))) 0);
    [reflexivity|].
  destruct (Nat.ltb_spec 500 (String.length (default "" (cd_text data))));
    [reflexivity|].
  exfalso. destruct H as [H|[H|H]]; [done|done|lia].
Qed.

(** C6.  The chat:message path validates nothing.  From a socket bound to
    a room, whatever message the payload carries (an empty text, a text of
    any length) is broadcast to the rest of the addressed room and stored in
    its history. *)
Theorem chat_ns_stores_any_message c w data room0 :
  bound_room c = Some room0 →
  ∃ w',
    on_chat_message_ns c data w = (Ok c, w')
    ∧ outbox w' = outbox w ++ [mkEmit (ToRoomExcept (cn_roomId data) (socket_id c))
                                      "chat:message" (cn_message data)]
    ∧ st_list (store w') (messages_key (cn_roomId data))
      = list_range (st_list (store w) (messages_key (cn_roomId data))
                    ++ [cn_message data]) (-100) (-1)
    ∧ cn_message data ∈ st_list (store w') (messages_key (cn_roomId data)).
Proof.
  intros Hb. unfold on_chat_message_ns, try_catch, bind at 1.
  rewrite Hb. simpl. eexists. split; [reflexivity|]. simpl.
  autorewrite with store. rewrite !decide_True by done.
  split; [reflexivity|]. split; [reflexivity|].
  change (-100) with (- Z.of_nat 100). rewrite list_range_last by lia.
  rewrite drop_app_le by (rewrite length_app; simpl; lia).
  set_solver.
Qed.

Lemma chat_ns_stores_any_message_witness :
  bound_room alice_conn = Some "ROOM01"
  ∧ ∃ w',
      on_chat_message_ns alice_conn (mkChatNsData "ROOM01" empty_text_message)
                         (crowd "ROOM01" 2) = (Ok alice_conn, w')
      ∧ outbox w' = outbox (crowd "ROOM01" 2)
                    ++ [mkEmit (ToRoomExcept "ROOM01" "s0") "chat:message"
                               empty_text_message]
      ∧ st_list (store w') (messages_key "ROOM01")
        = list_range (st_list (store (crowd "ROOM01" 2)) (messages_key "ROOM01")
                      ++ [empty_text_message]) (-100) (-1)
      ∧ empty_text_message ∈ st_list (store w') (messages_key "ROOM01").
Proof.
  split; [reflexivity|].
  exact (chat_ns_stores_any_message alice_conn (crowd "ROOM01" 2)
           (mkChatNsData "ROOM01" empty_text_message) "ROOM01" eq_refl).
Defined.

(** ** Playback state writes *)

(** C7.  media:change writes [currentTime] and [isPlaying] without
    [lastSync].  From a socket bound to a room the handler issues exactly
    one command, an HMSET of mediaType, mediaUrl, currentTime '0' and
    isPlaying 'false'; [lastSync] is not among its fields and the stored
    [lastSync] of the room keeps the value of an earlier call. *)
Theorem media_change_ns_omits_lastSync c w data room0 :
  bound_room c = Some room0 →
  ∃ w' fields,
    on_media_change_ns c data w = (Ok c, w')
    ∧ issued (on_media_change_ns c data) w = [HMSET (room_key (mn_roomId data)) fields]
    ∧ assoc "currentTime" fields = Some "0"
    ∧ assoc "isPlaying" fields = Some "false"
    ∧ assoc "lastSync" fields = None
    ∧ sound_playback_write (HMSET (room_key (mn_roomId data)) fields) = false
    ∧ st_hgetall (store w') (room_key (mn_roomId data)) !! "lastSync"
      = st_hgetall (store w) (room_key (mn_roomId data)) !! "lastSync".
Proof.
  intros Hb. unfold issued, on_media_change_ns, try_catch, bind at 1.
  unfold bind at 2. rewrite Hb. simpl. eexists _, _.
  split; [reflexivity|]. rewrite drop_app_length.
  split; [reflexivity|]. do 4 (split; [reflexivity|]).
  simpl. autorewrite with store. rewrite decide_True by done.
  rewrite lookup_union_r; [done|]. reflexivity.
Qed.

Lemma media_change_ns_omits_lastSync_witness :
  bound_room alice_conn = Some "ROOM01"
  ∧ ∃ w' fields,
      on_media_change_ns alice_conn (mkMediaNsData "ROOM01" "url" "http://v/a.mp4")
                         (crowd "ROOM01" 2) = (Ok alice_conn, w')
      ∧ issued (on_media_change_ns alice_conn
                  (mkMediaNsData "ROOM01" "url" "http://v/a.mp4")) (crowd "ROOM01" 2)
        = [HMSET (room_key "ROOM01") fields]
      ∧ assoc "currentTime" fields = Some "0"
      ∧ assoc "isPlaying" fields = Some "false"
      ∧ assoc "lastSync" fields = None
      ∧ sound_playback_write (HMSET (room_key "ROOM01") fields) = false
      ∧ st_hgetall (store w') (room_key "ROOM01") !! "lastSync"
        = st_hgetall (store (crowd "ROOM01" 2)) (room_key "ROOM01") !! "lastSync".
Proof.
  split; [reflexivity|].
  exact (media_change_ns_omits_lastSync alice_conn (crowd "ROOM01" 2)
           (mkMediaNsData "ROOM01" "url" "http://v/a.mp4") "ROOM01" eq_refl).
Defined.

(** ** A rely-style rule set for handlers

    [steps R m] says that running [m] relates the world before to the world
    after by [R], whether [m] returns or throws.  For a preorder [R] the
    property goes through sequencing, [try]/[catch] and loops, so a handler
    is checked by checking the primitives it calls. *)

Section steps_rules.
Context (R : relation World) `{!PreOrder R}.

Lemma steps_ret {A} (a : A) : steps R (ret a).
Proof. intros w. simpl. reflexivity. Qed.

Lemma steps_throw {A} e : steps R (@throw A e).
Proof. intros w. simpl. reflexivity. Qed.

Lemma steps_bind {A B} (m : M A) (k : A → M B) :
  steps R m → (∀ a, steps R (k a)) → steps R (bind m k).
Proof.
  intros Hm Hk w. unfold bind. specialize (Hm w).
  destruct (m w) as [[a|e] w1]; simpl in *; [|done].
  etrans; [exact Hm | apply Hk].
Qed.

Lemma steps_try_catch {A} (m : M A) (h : string → M A) :
  steps R m → (∀ e, steps R (h e)) → steps R (try_catch m h).
Proof.
  intros Hm Hh w. unfold try_catch. specialize (Hm w).
  destruct (m w) as [[a|e] w1]; simpl in *; [done|].
  etrans; [exact Hm | apply Hh].
Qed.

Lemma steps_for_each {A} (xs : list A) (body : A → M unit) :
  (∀ x, steps R (body x)) → steps R (for_each xs body).
Proof.
  intros Hb. induction xs as [|x xs IH]; simpl.
  - apply steps_ret.
  - apply steps_bind; [apply Hb | intros _; apply IH].
Qed.
End steps_rules.

(** One structural step in breaking a handler down to its primitives. *)
Ltac steps_struct :=
  lazymatch goal with
  | |- steps _ (ret _) => apply steps_ret; solve [typeclasses eauto]
  | |- steps _ (throw _) => apply steps_throw; solve [typeclasses eauto]
  | |- steps _ (bind _ _) =>
      apply steps_bind; [solve [typeclasses eauto] | | intros ?]
  | |- steps _ (try_catch _ _) =>
      apply steps_try_catch; [solve [typeclasses eauto] | | intros ?]
  | |- steps _ (for_each _ _) =>
      apply steps_for_each; [solve [typeclasses eauto] | intros ?]
  | |- steps _ (match ?x with _ => _ end) => destruct x
  end.

(** *** Every playback write but one carries lastSync *)

#[export] Instance sound_log_preorder : PreOrder sound_log.
Proof.
  split.
  - intros w. exists []. by rewrite app_nil_r.
  - intros w1 w2 w3 (c1 & E1 & F1) (c2 & E2 & F2). exists (c1 ++ c2).
    rewrite E2, E1, app_assoc. split; [done | by apply Forall_app].
Qed.

Lemma sound_log_one w s cmd :
  sound_playback_write cmd = true → sound_log w (with_store w s cmd).
Proof. intros H. exists [cmd]. split; [done | by constructor]. Qed.

Lemma sound_log_same_log w w' :
  redis_log w' = redis_log w → sound_log w w'.
Proof. intros H. exists []. by rewrite app_nil_r. Qed.

Ltac sound_prim :=
  lazymatch goal with
  | |- steps sound_log _ =>
      first
        [ solve [intros ?; apply sound_log_one; reflexivity]
        | solve [intros ?; apply sound_log_same_log; reflexivity] ]
  end.

Lemma sound_getRoomData roomId : steps sound_log (getRoomData roomId).
Proof. unfold getRoomData. repeat first [steps_struct | sound_prim]. Qed.

Lemma sound_collect roomId ids acc :
  steps sound_log (collect_participants roomId ids acc).
Proof.
  revert acc. induction ids as [|odaId ids IH]; intros acc; simpl;
    repeat first [steps_struct | sound_prim | apply IH].
Qed.

Lemma sound_getRoomParticipants roomId :
  steps sound_log (getRoomParticipants roomId).
Proof.
  unfold getRoomParticipants.
  repeat first [steps_struct | sound_prim | apply sound_collect].
Qed.

Lemma sound_deleteRoom roomId : steps sound_log (deleteRoom roomId).
Proof. unfold deleteRoom. repeat first [steps_struct | sound_prim]. Qed.

Ltac sound_handler :=
  repeat first
    [ steps_struct
    | lazymatch goal with
      | |- steps _ (getRoomData _) => apply sound_getRoomData
      | |- steps _ (getRoomParticipants _) => apply sound_getRoomParticipants
      | |- steps _ (deleteRoom _) => apply sound_deleteRoom
      end
    | sound_prim ].

(** The sibling handlers that write playback state, and the two that create
    or re-elect, never set [currentTime] or [isPlaying] without [lastSync]. *)
Lemma playback_writers_carry_lastSync c :
  (∀ d, steps sound_log (on_media_change c d))
  ∧ (∀ d, steps sound_log (on_playback_state c d))
  ∧ (∀ d, steps sound_log (on_sync_play c d))
  ∧ (∀ d, steps sound_log (on_sync_pause c d))
  ∧ (∀ d, steps sound_log (on_sync_seek c d))
  ∧ (∀ d, steps sound_log (on_seek c d))
  ∧ (∀ d, steps sound_log (on_room_join c d))
  ∧ (∀ d, steps sound_log (on_join_room c d))
  ∧ steps sound_log (handleLeaveRoom c).
Proof.
  repeat split; intros;
    unfold on_media_change, on_playback_state, on_sync_play, on_sync_pause,
      on_sync_seek, on_seek, on_room_join, on_join_room, handleLeaveRoom,
      toString, the_user;
    sound_handler.
Qed.

(** ** Playback broadcasts *)

Example alice_conn_is_joined :
  fst (on_room_join (member_socket 0) (mkJoinData "ROOM01" (Some (member 0))) world0)
  = Ok alice_conn.
Proof. vm_compute. reflexivity. Qed.

(** C8, as amended.  For an accepted play, pause or seek event from a bound
    participant, the namespaced handlers sync:play, sync:pause and sync:seek
    broadcast to every socket in the room except the sender, while
    playback_state and seek broadcast to every socket in the room, the
    sender included. *)
Theorem playback_broadcast_targets c w room cu t playing :
  bound c = Some (room, cu) →
  let others := room_sockets w room ∖ {[socket_id c]} in
  let everyone := room_sockets w room in
  broadcasts (on_sync_play c (mkSyncData (Some t))) w "sync:play" others
  ∧ broadcasts (on_sync_pause c (mkSyncData (Some t))) w "sync:pause" others
  ∧ broadcasts (on_sync_seek c (mkSyncData (Some t))) w "sync:seek" others
  ∧ broadcasts (on_playback_state c (mkPlaybackData playing (Some t))) w
               "playback_sync" everyone
  ∧ broadcasts (on_seek c (mkSeekData (Some t))) w "seek_sync" everyone.
Proof.
  intros Hb others everyone.
  repeat split;
    unfold broadcasts, on_sync_play, on_sync_pause, on_sync_seek,
      on_playback_state, on_seek, try_catch, bind;
    rewrite Hb; simpl; eexists; (split; [reflexivity|]); split; reflexivity.
Qed.

Lemma playback_broadcast_targets_witness :
  bound alice_conn = Some ("ROOM01", mkCurrentUser (member 0) None None)
  ∧ let w := crowd "ROOM01" 2 in
    let others := room_sockets w "ROOM01" ∖ {["s0"]} in
    let everyone := room_sockets w "ROOM01" in
    broadcasts (on_sync_play alice_conn (mkSyncData (Some "12.5"))) w "sync:play" others
    ∧ broadcasts (on_sync_pause alice_conn (mkSyncData (Some "12.5"))) w
                 "sync:pause" others
    ∧ broadcasts (on_sync_seek alice_conn (mkSyncData (Some "12.5"))) w
                 "sync:seek" others
    ∧ broadcasts (on_playback_state alice_conn (mkPlaybackData true (Some "12.5"))) w
                 "playback_sync" everyone
    ∧ broadcasts (on_seek alice_conn (mkSeekData (Some "12.5"))) w
                 "seek_sync" everyone.
Proof.
  split; [reflexivity|].
  exact (playback_broadcast_targets alice_conn (crowd "ROOM01" 2) "ROOM01"
           (mkCurrentUser (member 0) None None) "12.5" true eq_refl).
Defined.

(** C8 as stated fails: with s0 and s1 in ROOM01, the playback_sync event
    that answers s0's playback_state is not delivered to "all except the
    sender"; it reaches s0 itself. *)
Lemma playback_state_reaches_sender :
  let w := crowd "ROOM01" 2 in
  let m := on_playback_state alice_conn (mkPlaybackData true (Some "12.5")) in
  ¬ broadcasts m w "playback_sync" (room_sockets w "ROOM01" ∖ {["s0"]})
  ∧ ∃ e, outbox (snd (m w)) = outbox w ++ [e]
         ∧ e_event e = "playback_sync"
         ∧ "s0" ∈ recipients (snd (m w)) (e_target e).
Proof.
  intros w m.
  assert (Hout : outbox (snd (m w))
                 = outbox w ++ [mkEmit (ToRoom "ROOM01") "playback_sync"
                                  (JObj [("isPlaying", JBool true);
                                         ("currentTime", JNum "12.5");
                                         ("syncedBy", JStr "guest");
                                         ("timestamp", JNum (num_str 1700000000000))])])
    by (vm_compute; reflexivity).
  assert (Hin : "s0" ∈ recipients (snd (m w)) (ToRoom "ROOM01"))
    by (apply (bool_decide_unpack _); vm_compute; exact I).
  split.
  - intros (e & He & _ & Hr). rewrite Hout in He.
    apply app_inj_tail in He as [_ <-]. cbn [e_target] in Hr.
    rewrite Hr in Hin. apply elem_of_difference in Hin as [_ Hn].
    apply Hn. by apply elem_of_singleton.
  - eexists. split; [exact Hout|]. split; [reflexivity | exact Hin].
Qed.

(** ** The participant listing *)

Lemma sort_insert_perm a l : sort_insert a l ≡ₚ a :: l.
Proof.
  induction l as [|b l IH]; simpl; [done|].
  destruct (_ <=? _); [done|]. rewrite IH. apply perm_swap.
Qed.

Lemma js_sort_perm l : js_sort l ≡ₚ l.
Proof.
  induction l as [|a l IH]; simpl; [done|].
  by rewrite sort_insert_perm, IH.
Qed.

Lemma earlier_trans a b c : earlier a b → earlier b c → earlier a c.
Proof.
  intros (x & y & Ha & Hb & ?) (y' & z & Hb' & Hc & ?).
  exists x, z. repeat split; [done..|]. rewrite Hb in Hb'. simplify_eq. lia.
Qed.

Lemma sort_insert_sorted a l :
  dated a → Forall dated l → StronglySorted earlier l →
  StronglySorted earlier (sort_insert a l).
Proof.
  intros [x Hx] Hl Hs. induction Hs as [|b l Hs IH Hb]; simpl.
  - repeat constructor.
  - apply Forall_cons in Hl as [[y Hy] Hl].
    unfold compare_joinedAt. rewrite Hx, Hy.
    destruct (Z.leb_spec (x - y) 0) as [Hle|Hgt].
    + assert (earlier a b) by (exists x, y; repeat split; [done..|lia]).
      constructor; [by constructor|].
      constructor; [done|]. eapply Forall_impl; [exact Hb|].
      intros c Hc. by eapply earlier_trans.
    + constructor; [by apply IH|].
      rewrite sort_insert_perm. constructor; [|done].
      exists y, x. repeat split; [done..|lia].
Qed.

Lemma js_sort_sorted l : Forall dated l → StronglySorted earlier (js_sort l).
Proof.
  induction 1 as [|a l Ha Hl IH]; simpl; [constructor|].
  apply sort_insert_sorted; [done| |done]. by rewrite js_sort_perm.
Qed.

Lemma collect_pure_length s roomId ids :
  (length (collect_pure s roomId ids)
   + length (filter (λ odaId,
               truthy (st_hgetall s (user_key roomId odaId) !! "id") = false) ids)
   = length ids)%nat.
Proof.
  induction ids as [|odaId ids IH]; simpl; [done|].
  rewrite filter_cons. destruct (truthy _) eqn:E; case_decide; simpl;
    try done; lia.
Qed.

Lemma listing_length s roomId :
  Z.of_nat (length (listing s roomId))
  = st_scard s (participants_key roomId)
    - Z.of_nat (length (missing_records s roomId)).
Proof.
  unfold listing, missing_records, st_scard.
  rewrite js_sort_perm.
  pose proof (collect_pure_length s roomId (member_ids s roomId)) as H.
  unfold member_ids in *. unfold size, set_size. simpl. lia.
Qed.

Lemma missing_record_counts s roomId odaId :
  odaId ∈ st_smembers s (participants_key roomId) →
  st_hgetall s (user_key roomId odaId) = ∅ →
  odaId ∈ missing_records s roomId.
Proof.
  intros Hin He. unfold missing_records, member_ids.
  apply list_elem_of_filter. split; [by rewrite He | by apply elem_of_elements].
Qed.

Lemma api_room_get_count w roomId :
  get_count (fst (api_room_get roomId w))
  = match room_of_hash (st_hgetall (store w) (room_key roomId)) with
    | Some _ => Some (Z.of_nat (length (listing (store w) roomId)))
    | None => None
    end.
Proof.
  unfold api_room_get, try_catch, bind. rewrite getRoomData_run.
  destruct (room_of_hash _); [|reflexivity].
  by rewrite getRoomParticipants_run.
Qed.

Lemma api_room_validate_count w roomId :
  validate_count (fst (api_room_validate roomId w))
  = if st_exists (store w) (room_key roomId)
    then Some (st_scard (store w) (participants_key roomId)) else None.
Proof.
  unfold api_room_validate, try_catch, bind. simpl.
  by destruct (st_exists _ _).
Qed.

(** C10.  The listing leaves out every member id whose user record is
    missing (or has no id): its length is the cardinality of the membership
    set minus the number of such ids.  GET /api/room/:roomId reports the
    length of the listing, the validate endpoint reports the cardinality,
    and there is a state the handlers reach in which the first is strictly
    smaller than the second. *)
Theorem participant_count_omits_missing_records :
  (∀ w roomId,
     get_count (fst (api_room_get roomId w))
     = match room_of_hash (st_hgetall (store w) (room_key roomId)) with
       | Some _ => Some (st_scard (store w) (participants_key roomId)
                         - Z.of_nat (length (missing_records (store w) roomId)))
       | None => None
       end
     ∧ validate_count (fst (api_room_validate roomId w))
       = (if st_exists (store w) (room_key roomId)
          then Some (st_scard (store w) (participants_key roomId)) else None)
     ∧ ∀ odaId, odaId ∈ st_smembers (store w) (participants_key roomId) →
                st_hgetall (store w) (user_key roomId odaId) = ∅ →
                odaId ∈ missing_records (store w) roomId)
  ∧ ∃ n m,
      get_count (fst (api_room_get "a" colliding_rooms)) = Some n
      ∧ validate_count (fst (api_room_validate "a" colliding_rooms)) = Some m
      ∧ n < m.
Proof.
  split.
  - intros w roomId. split; [|split].
    + rewrite api_room_get_count. destruct (room_of_hash _); [|done].
      by rewrite listing_length.
    + apply api_room_validate_count.
    + apply missing_record_counts.
  - exists 0, 1. split; [vm_compute; reflexivity|].
    split; [vm_compute; reflexivity|]. lia.
Qed.

(** ** Leaving and host re-election *)

Lemma user_key_not_room_key roomId roomId' odaId :
  user_key roomId' odaId ≠ room_key roomId.
Proof. intros H. by apply (room_key_not_user_key roomId roomId' odaId). Qed.

Lemma user_key_not_participants_key roomId roomId' odaId :
  user_key roomId' odaId ≠ participants_key roomId.
Proof. unfold participants_key, user_key. simpl. intros [=]. Qed.

Lemma user_key_not_messages_key roomId roomId' odaId :
  user_key roomId' odaId ≠ messages_key roomId.
Proof. unfold messages_key, user_key. simpl. intros [=]. Qed.

Lemma listing_le_scard s roomId :
  Z.of_nat (length (listing s roomId)) ≤ st_scard s (participants_key roomId).
Proof. rewrite listing_length. lia. Qed.

Lemma listing_head_earliest s roomId newHost rest :
  listing s roomId = newHost :: rest →
  Forall dated (listing s roomId) →
  ∀ q, q ∈ listing s roomId → earlier newHost q.
Proof.
  intros Hl Hd.
  assert (Hs : StronglySorted earlier (listing s roomId)).
  { unfold listing in *. apply js_sort_sorted.
    by rewrite <- (js_sort_perm (collect_pure _ _ _)). }
  rewrite Hl in *. apply StronglySorted_inv in Hs as [_ Hall].
  apply Forall_cons in Hd as [[x Hx] _].
  intros q [->|Hq]%elem_of_cons.
  - exists x, x. repeat split; [done..|lia].
  - by eapply Forall_forall in Hall.
Qed.

(** Re-election on a store whose remaining participants are all dated. *)
Lemma host_leave_elects c w room cu :
  bound c = Some (room, cu) →
  let me := u_id (cu_user cu) in
  let remaining := listing (after_removal (store w) room me) room in
  truthy (st_hgetall (store w) (room_key room) !! "id") = true →
  st_hgetall (store w) (room_key room) !! "hostId" = Some me →
  (1 < length remaining)%nat →
  Forall dated remaining →
  ∃ newHost w',
    handleLeaveRoom c w = (Ok (mkConn (socket_id c) None None), w')
    ∧ newHost ∈ remaining
    ∧ (∀ q, q ∈ remaining → earlier newHost q)
    ∧ st_hgetall (store w') (room_key room) !! "hostId" = Some (p_id newHost)
    ∧ st_hgetall (store w') (user_key room (p_id newHost)) !! "isHost" = Some "true"
    ∧ mkEmit (ToRoom room) "host_changed"
             (JObj [("newHostId", JStr (p_id newHost));
                    ("newHostName", opt_json (p_data newHost !! "name"))])
      ∈ outbox w'.
Proof.
  intros Hb me remaining Hid Hhost Hlen Hdated.
  pose proof (listing_le_scard (after_removal (store w) room me) room) as Hcard.
  fold remaining in Hcard.
  assert (Hroom : st_hgetall (after_removal (store w) room me) (room_key room)
                  = st_hgetall (store w) (room_key room)).
  { unfold after_removal. autorewrite with store.
    by rewrite decide_False by apply user_key_not_room_key. }
  unfold handleLeaveRoom, try_catch, bind at 1. rewrite Hb.
  unfold bind. simpl. fold me. fold (after_removal (store w) room me).
  destruct (Z.eqb_spec (st_scard (after_removal (store w) room me)
                                 (participants_key room)) 0) as [E|_]; [lia|].
  simpl. rewrite Hroom.
  unfold room_of_hash. rewrite Hid. simpl. unfold r_field. simpl.
  rewrite bool_decide_true by done. simpl.
  rewrite getRoomParticipants_run. simpl. fold remaining.
  pose proof (listing_head_earliest (after_removal (store w) room me) room) as Hmin.
  fold remaining in Hmin.
  destruct remaining as [|newHost rest] eqn:Hrem; [simpl in Hlen; lia|].
  simpl. exists newHost. eexists. split; [reflexivity|]. simpl.
  split; [by left|]. split; [by eapply Hmin|].
  autorewrite with store.
  rewrite (decide_False (P := user_key _ _ = room_key _))
    by apply user_key_not_room_key.
  rewrite !decide_True by done.
  split; [by rewrite lookup_insert_eq|].
  split; [by rewrite lookup_insert_eq|].
  rewrite !elem_of_app, !list_elem_of_singleton. left. by right.
Qed.

(** The leave path appends its system message the same way: when somebody
    remains, the history grows by one entry and is not trimmed. *)
Lemma leave_appends_untrimmed c w room cu :
  bound c = Some (room, cu) →
  st_scard (after_removal (store w) room (u_id (cu_user cu))) (participants_key room) ≠ 0 →
  ∃ w' systemMessage,
    handleLeaveRoom c w = (Ok (mkConn (socket_id c) None None), w')
    ∧ st_list (store w') (messages_key room)
      = st_list (store w) (messages_key room) ++ [systemMessage].
Proof.
  intros Hb Hne. unfold handleLeaveRoom, try_catch, bind. rewrite Hb. simpl.
  fold (after_removal (store w) room (u_id (cu_user cu))).
  destruct (Z.eqb_spec (st_scard (after_removal (store w) room (u_id (cu_user cu)))
                                 (participants_key room)) 0) as [E|_]; [done|].
  simpl.
  destruct (room_of_hash _) as [r|]; simpl;
    [destruct (bool_decide _); simpl;
       [rewrite getRoomParticipants_run; simpl;
        destruct (listing _ _) as [|newHost rest]; simpl|]|];
    eexists _, _; (split; [reflexivity|]); simpl;
    unfold after_removal; autorewrite with store;
    rewrite ?(decide_False (P := user_key _ _ = messages_key _))
      by apply user_key_not_messages_key;
    by rewrite ?decide_True by done.
Qed.

Example party_elects_bob :
  let w' := snd (handleLeaveRoom ann_conn party) in
  st_hgetall (store w') (room_key "AB3XY9") !! "hostId" = Some "bob"
  ∧ p_isHost <$> listing (store w') "AB3XY9" = [true; false]
  ∧ p_id <$> listing (store w') "AB3XY9" = ["bob"; "cem"].
Proof. vm_compute. done. Qed.

(** ** The periodic sweep *)

Lemma append_nil_l (s : string) : "" +:+ s = s.
Proof. reflexivity. Qed.

Lemma append_length (a b : string) :
  String.length (a +:+ b) = (String.length a + String.length b)%nat.
Proof. induction a as [|ch a IH]; simpl; [done | by rewrite IH]. Qed.

Lemma append_inj_length (a b s t : string) :
  String.length a = String.length b → a +:+ s = b +:+ t → a = b ∧ s = t.
Proof.
  revert b. induction a as [|ch a IH]; intros [|ch' b]; simpl; try done.
  intros [= Hlen] [= -> Heq]. destruct (IH b Hlen Heq) as [-> ->]. done.
Qed.

Lemma strip_prefix_Some p s r : strip_prefix p s = Some r → s = p +:+ r.
Proof.
  revert s. induction p as [|a p IH]; intros s; simpl.
  - by intros [= ->].
  - destruct s as [|b s]; [done|].
    destruct (Ascii.eqb_spec a b) as [->|]; [|done].
    intros H. by rewrite (IH _ H).
Qed.

Lemma strip_prefix_append p r : strip_prefix p (p +:+ r) = Some r.
Proof.
  induction p as [|a p IH]; simpl; [done|]. by rewrite Ascii.eqb_refl.
Qed.

Lemma is_code_length roomId : is_code roomId = true → String.length roomId = 6%nat.
Proof. unfold is_code. intros [H _]%andb_prop. by apply Nat.eqb_eq. Qed.

Lemma match_room_key_Some key roomId :
  match_room_key key = Some roomId ↔ key = room_key roomId ∧ is_code roomId = true.
Proof.
  unfold match_room_key, room_key. split.
  - destruct (strip_prefix "room:" key) as [r|] eqn:E; [|done].
    apply strip_prefix_Some in E. fold (is_code r).
    destruct (is_code r) eqn:Hc; [|done]. by intros [= <-].
  - intros [-> Hc]. rewrite strip_prefix_append. fold (is_code roomId).
    by rewrite Hc.
Qed.

Section code_keys.
Context (X R : string) (HX : is_code X = true) (HR : is_code R = true).

Lemma participants_key_inj : participants_key X = participants_key R → X = R.
Proof.
  unfold participants_key. simpl. intros [= H]. rewrite !append_nil_l in H.
  apply (append_inj_length X R) in H as [? _]; [done|].
  by rewrite (is_code_length X), (is_code_length R).
Qed.

Lemma messages_key_inj : messages_key X = messages_key R → X = R.
Proof.
  unfold messages_key. simpl. intros [= H]. rewrite !append_nil_l in H.
  apply (append_inj_length X R) in H as [? _]; [done|].
  by rewrite (is_code_length X), (is_code_length R).
Qed.

Lemma room_key_not_participants_key : room_key X ≠ participants_key R.
Proof.
  unfold room_key, participants_key. simpl. intros [= H]. rewrite !append_nil_l in H.
  apply (f_equal String.length) in H. rewrite append_length in H.
  rewrite (is_code_length X), (is_code_length R) in H by done. simpl in H. lia.
Qed.

Lemma room_key_not_messages_key : room_key X ≠ messages_key R.
Proof.
  unfold room_key, messages_key. simpl. intros [= H]. rewrite !append_nil_l in H.
  apply (f_equal String.length) in H. rewrite append_length in H.
  rewrite (is_code_length X), (is_code_length R) in H by done. simpl in H. lia.
Qed.

Lemma participants_key_not_messages_key : participants_key X ≠ messages_key R.
Proof.
  unfold participants_key, messages_key. simpl. intros [= H]. rewrite !append_nil_l in H.
  apply (append_inj_length X R) in H as [_ ?]; [done|].
  by rewrite (is_code_length X), (is_code_length R).
Qed.
End code_keys.

Lemma scard_zero_no_members s k : st_scard s k = 0 → st_smembers s k = ∅.
Proof.
  unfold st_scard. intros H. apply leibniz_equiv, size_empty_iff. lia.
Qed.

Lemma sweep_room_run roomId w :
  ∃ w', sweep_room roomId w = (Ok tt, w')
        ∧ store w' = swept (clock w) (store w) roomId
        ∧ clock w' = clock w.
Proof.
  unfold sweep_room, swept, stale, bind. simpl.
  destruct (room_of_hash _) as [room|]; [|by eexists].
  destruct (Z.eqb_spec (st_scard (store w) (participants_key roomId)) 0)
    as [Hz|]; [|by eexists].
  simpl. destruct (r_createdAt room) as [createdAt|]; [|by eexists].
  destruct (_ <? _); [|by eexists].
  unfold deleteRoom, bind. simpl.
  rewrite (scard_zero_no_members _ _ Hz), elements_empty. by eexists.
Qed.

Lemma for_each_sweep_run roomIds w :
  store (snd (for_each roomIds sweep_room w))
  = foldl (swept (clock w)) (store w) roomIds.
Proof.
  revert w. induction roomIds as [|roomId roomIds IH]; intros w; [done|].
  simpl. unfold bind.
  destruct (sweep_room_run roomId w) as (w1 & -> & Hs & Hc).
  by rewrite IH, Hs, Hc.
Qed.

Lemma stale_view s s' now roomId :
  room_view s roomId = room_view s' roomId → stale s now roomId = stale s' now roomId.
Proof. unfold room_view, stale, st_scard. by intros [= -> -> _]. Qed.

Lemma stale_no_room s now roomId :
  room_view s roomId = no_room → stale s now roomId = false.
Proof. unfold room_view, stale. by intros [= -> _ _]. Qed.

Lemma swept_other now s R X :
  is_code X = true → is_code R = true → X ≠ R →
  room_view (swept now s R) X = room_view s X.
Proof.
  intros HX HR Hne. unfold swept. destruct (stale s now R); [|done].
  unfold delete_room_keys, room_view. autorewrite with store.
  repeat case_decide; try done; exfalso;
    first [ by apply Hne, room_key_inj
          | by apply Hne, participants_key_inj
          | by apply Hne, messages_key_inj
          | by eapply (room_key_not_participants_key X R)
          | by eapply (room_key_not_participants_key R X)
          | by eapply (room_key_not_messages_key X R)
          | by eapply (room_key_not_messages_key R X)
          | by eapply (participants_key_not_messages_key X R)
          | by eapply (participants_key_not_messages_key R X) ].
Qed.

Lemma swept_same now s R :
  room_view (swept now s R) R
  = if stale s now R then no_room else room_view s R.
Proof.
  unfold swept. destruct (stale s now R); [|done].
  unfold delete_room_keys, room_view, no_room. autorewrite with store.
  repeat case_decide; done.
Qed.

Lemma sweep_fold now roomIds s X :
  is_code X = true → Forall (λ R, is_code R = true) roomIds →
  room_view (foldl (swept now) s roomIds) X
  = if bool_decide (X ∈ roomIds) && stale s now X then no_room else room_view s X.
Proof.
  intros HX Hall. revert s.
  induction Hall as [|R roomIds HR Hall IH]; intros s; [done|].
  simpl. rewrite IH. destruct (decide (X = R)) as [->|Hne].
  - rewrite (bool_decide_true (R ∈ R :: roomIds)) by left.
    rewrite swept_same. simpl. destruct (stale s now R) eqn:Hst.
    + by rewrite (stale_no_room (swept now s R)), andb_false_r
        by (by rewrite swept_same, Hst).
    + unfold swept. rewrite Hst, Hst, andb_false_r. done.
  - rewrite (stale_view (swept now s R) s) by (by apply swept_other).
    rewrite swept_other by done.
    replace (bool_decide (X ∈ R :: roomIds)) with (bool_decide (X ∈ roomIds));
      [done|]. apply bool_decide_ext. rewrite elem_of_cons. naive_solver.
Qed.

Lemma room_key_has_prefix roomId : has_prefix "room:" (room_key roomId) = true.
Proof. unfold has_prefix, room_key. by destruct roomId. Qed.

Lemma stale_room_is_listed s now roomId :
  is_code roomId = true → stale s now roomId = true →
  roomId ∈ remove_dups (omap match_room_key (st_keys s "room:")).
Proof.
  intros Hc Hst. apply elem_of_remove_dups, list_elem_of_omap.
  exists (room_key roomId). split; [|by apply match_room_key_Some].
  unfold stale in Hst.
  destruct (room_of_hash _) as [room|] eqn:Hroom; [clear Hst|done].
  assert (Hne : st_hgetall s (room_key roomId) ≠ ∅).
  { intros He. by rewrite He in Hroom. }
  unfold st_keys. apply list_elem_of_filter. split.
  - split; [apply room_key_has_prefix|]. unfold st_exists.
    by rewrite bool_decide_false.
  - apply elem_of_elements. do 2 apply elem_of_union_l. apply elem_of_dom.
    unfold st_hgetall in Hne. destruct (hashes s !! room_key roomId); [done|].
    by exfalso.
Qed.

Lemma swept_codes s :
  Forall (λ R, is_code R = true)
         (remove_dups (omap match_room_key (st_keys s "room:"))).
Proof.
  apply Forall_forall. intros R HR.
  apply (proj1 (elem_of_remove_dups _ _)) in HR.
  apply list_elem_of_omap in HR as (key & _ & Hm).
  by apply match_room_key_Some in Hm as [_ ?].
Qed.

Lemma cleanup_store w :
  store (snd (cleanup w))
  = foldl (swept (clock w)) (store w)
          (remove_dups (omap match_room_key (st_keys (store w) "room:"))).
Proof.
  unfold cleanup, try_catch, bind. simpl.
  match goal with
  | |- context [for_each ?ids sweep_room ?w1] =>
      pose proof (for_each_sweep_run ids w1) as H;
      destruct (for_each ids sweep_room w1) as [[[]|e] w2]
  end; exact H.
Qed.




(** ** Every user record carries a numeric joinedAt *)

Lemma list_to_map_assoc (fields : list (string * string)) (f : string) :
  (list_to_map fields : gmap string string) !! f = assoc f fields.
Proof.
  induction fields as [|[g v] fields IH]; simpl; [done|].
  destruct (String.eqb_spec f g) as [->|Hne].
  - by rewrite lookup_insert_eq.
  - by rewrite lookup_insert_ne.
Qed.

Lemma hmset_lookup s k fields f :
  st_hgetall (st_hmset s k fields) k !! f
  = match assoc f fields with
    | Some v => Some v
    | None => st_hgetall s k !! f
    end.
Proof.
  rewrite hgetall_hmset, decide_True by done.
  rewrite lookup_union, list_to_map_assoc.
  destruct (assoc f fields); [|by rewrite (left_id_L None _)].
  by destruct (st_hgetall s k !! f).
Qed.

#[export] Instance dated_rel_preorder : PreOrder dated_rel.
Proof.
  split.
  - intros w H. exact H.
  - intros w1 w2 w3 H1 H2 H. apply H2, H1, H.
Qed.

Lemma dated_same_hashes {A} (m : M A) :
  (∀ w, hashes (store (snd (m w))) = hashes (store w)) → steps dated_rel m.
Proof.
  intros Hm w Hd roomId odaId. specialize (Hm w).
  unfold st_hgetall in *. rewrite Hm. apply Hd.
Qed.

Lemma dated_expire k secs : steps dated_rel (redis.expire k secs).
Proof.
  apply dated_same_hashes. intros w. simpl. unfold st_expire.
  by destruct (st_exists _ _).
Qed.

Lemma dated_del k : steps dated_rel (redis.del k).
Proof.
  intros w Hd roomId odaId. simpl. rewrite hgetall_del.
  case_decide; [done | apply Hd].
Qed.

Lemma dated_hmset_room roomId fields :
  steps dated_rel (redis.hmset (room_key roomId) fields).
Proof.
  intros w Hd roomId' odaId. simpl. rewrite hgetall_hmset.
  rewrite decide_False by apply room_key_not_user_key. apply Hd.
Qed.

Lemma dated_hset_room roomId f v :
  steps dated_rel (redis.hset (room_key roomId) f v).
Proof.
  intros w Hd roomId' odaId. simpl. rewrite hgetall_hset.
  rewrite decide_False by apply room_key_not_user_key. apply Hd.
Qed.

Lemma dated_hmset_user roomId odaId fields z :
  assoc "joinedAt" fields = Some (num_str z) →
  steps dated_rel (redis.hmset (user_key roomId odaId) fields).
Proof.
  intros Hj w Hd roomId' odaId'. simpl.
  destruct (decide (user_key roomId odaId = user_key roomId' odaId')) as [<-|Hne].
  - intros _. rewrite hmset_lookup, Hj. simpl. rewrite parseInt_num_str. by eexists.
  - rewrite hgetall_hmset, decide_False by done. apply Hd.
Qed.

Lemma dated_hset_user roomId odaId f v :
  f ≠ "id" → f ≠ "joinedAt" →
  steps dated_rel (redis.hset (user_key roomId odaId) f v).
Proof.
  intros Hid Hj w Hd roomId' odaId'. simpl. rewrite hgetall_hset.
  case_decide as Hk; [|apply Hd].
  rewrite !lookup_insert_ne by done. apply Hd.
Qed.

Ltac dated_prim :=
  lazymatch goal with
  | |- steps dated_rel (redis.hmset (room_key _) _) => apply dated_hmset_room
  | |- steps dated_rel (redis.hmset (user_key _ _) _) =>
      eapply dated_hmset_user; reflexivity
  | |- steps dated_rel (redis.hset (room_key _) _ _) => apply dated_hset_room
  | |- steps dated_rel (redis.hset (user_key _ _) _ _) =>
      apply dated_hset_user; done
  | |- steps dated_rel (redis.del _) => apply dated_del
  | |- steps dated_rel (redis.expire _ _) => apply dated_expire
  | |- steps dated_rel _ => apply dated_same_hashes; reflexivity
  end.

Lemma dated_getRoomData roomId : steps dated_rel (getRoomData roomId).
Proof. unfold getRoomData. repeat first [steps_struct | dated_prim]. Qed.

Lemma dated_collect roomId ids acc :
  steps dated_rel (collect_participants roomId ids acc).
Proof.
  revert acc. induction ids as [|odaId ids IH]; intros acc; simpl;
    repeat first [steps_struct | apply IH | dated_prim].
Qed.

Lemma dated_getRoomParticipants roomId :
  steps dated_rel (getRoomParticipants roomId).
Proof.
  unfold getRoomParticipants.
  repeat first [steps_struct | apply dated_collect | dated_prim].
Qed.

Lemma dated_deleteRoom roomId : steps dated_rel (deleteRoom roomId).
Proof. unfold deleteRoom. repeat first [steps_struct | dated_prim]. Qed.

Lemma dated_room_code_loop fuel attempts :
  steps dated_rel (room_code_loop fuel attempts).
Proof.
  intros w Hd. destruct (quiet_room_code_loop fuel attempts w)
    as (a & w' & -> & Hs & _). simpl. by rewrite Hs.
Qed.

Ltac dated_handler :=
  repeat first
    [ steps_struct
    | lazymatch goal with
      | |- steps _ (getRoomData _) => apply dated_getRoomData
      | |- steps _ (getRoomParticipants _) => apply dated_getRoomParticipants
      | |- steps _ (deleteRoom _) => apply dated_deleteRoom
      | |- steps _ (room_code_loop _ _) => apply dated_room_code_loop
      end
    | dated_prim ].

(** ** Every event keeps the user records dated *)

Lemma dated_socket_handler ev sid handler c :
  socket_handler ev = Some (sid, handler) → steps dated_rel (handler c).
Proof.
  destruct ev; intros [= <- <-];
    unfold on_join_room, on_room_join, on_leave_room, on_room_leave,
      on_disconnect, handleLeaveRoom, on_media_change, on_media_change_ns,
      on_playback_state, on_sync_play, on_sync_pause, on_sync_seek,
      on_sync_request, on_sync_state, on_seek, on_request_sync,
      on_chat_message, on_chat_message_ns, on_typing_start, on_typing_stop,
      toString, the_user;
    dated_handler.
Qed.

Lemma dated_sweep_room roomId : steps dated_rel (sweep_room roomId).
Proof. unfold sweep_room. dated_handler. Qed.

Lemma steps_apply {A} (m : M A) w :
  steps dated_rel m → dated_store (store w) → dated_store (store (snd (m w))).
Proof. intros Hm Hd. by apply Hm. Qed.

Lemma dated_step srv ev :
  dated_store (store (world srv)) → dated_store (store (world (step srv ev))).
Proof.
  intros Hd. unfold step.
  destruct (socket_handler ev) as [[sid handler]|] eqn:Hev.
  - destruct (conns srv !! sid) as [c|]; [|done].
    pose proof (dated_socket_handler ev sid handler c Hev (world srv) Hd) as H.
    by destruct (handler c (world srv)) as [r w'].
  - destruct ev; try done; simpl; try done.
    + apply steps_apply; [|done]. unfold api_room_get. dated_handler.
    + apply steps_apply; [|done]. unfold api_room_create, resolve. dated_handler.
    + apply steps_apply; [|done]. unfold api_room_validate. dated_handler.
    + apply steps_apply; [|done]. unfold cleanup.
      repeat first [steps_struct | apply dated_sweep_room | dated_prim].
    + unfold expire_key. destruct (ttls _ !! key) as [deadline|]; [|done].
      destruct (_ <=? _); [|done].
      intros roomId odaId. simpl. rewrite hgetall_del.
      case_decide; [done | apply Hd].
Qed.

Lemma dated_boot now rnd : dated_store (store (world (boot now rnd))).
Proof. intros roomId odaId. simpl. unfold st_hgetall. simpl. done. Qed.

Lemma dated_run srv evs :
  dated_store (store (world srv)) → dated_store (store (world (run srv evs))).
Proof.
  revert srv. induction evs as [|ev evs IH]; intros srv Hd; [done|].
  simpl. by apply IH, dated_step.
Qed.

Lemma collect_pure_dated s roomId ids :
  dated_store s → Forall dated (collect_pure s roomId ids).
Proof.
  intros Hd. induction ids as [|odaId ids IH]; simpl; [constructor|].
  destruct (truthy _) eqn:E; [|done]. constructor; [|done].
  unfold dated, participant_of_hash. simpl. by apply Hd.
Qed.

Lemma listing_dated s roomId : dated_store s → Forall dated (listing s roomId).
Proof.
  intros Hd. unfold listing. rewrite js_sort_perm. by apply collect_pure_dated.
Qed.

Lemma listing_sorted s roomId :
  dated_store s → StronglySorted earlier (listing s roomId).
Proof. intros Hd. apply js_sort_sorted. by apply collect_pure_dated. Qed.

(** ** Ordering of the listing and the host flag *)

Lemma room_join_stores_client_flag c w roomId user :
  st_hgetall (store (snd (on_room_join c (mkJoinData roomId (Some user)) w)))
             (user_key roomId (u_id user)) !! "isHost"
  = Some (bool_str (u_isHost user)).
Proof.
  unfold on_room_join.
  cbn [jd_roomId jd_user the_user fmap option_fmap option_map].
  unfold try_catch, bind.
  cbn [socket_join redis.exists_ redis.hmset redis.sadd Date_now ret emit].
  cbn [store with_rooms with_store].
  destruct (st_exists (store w) (room_key roomId)); simpl;
    rewrite getRoomParticipants_run; simpl;
    match goal with
    | |- context [room_of_hash ?h] => destruct (room_of_hash h) as [room|]
    end; simpl;
    try match goal with |- context [truthy ?h] => destruct (truthy h) end; simpl;
    by rewrite hmset_lookup.
Qed.

Lemma join_room_derives_flag c w roomId user :
  let w' := snd (on_join_room c (mkJoinData roomId (Some user)) w) in
  store w' = store w
  ∨ st_hgetall (store w') (user_key roomId (u_id user)) !! "isHost"
    = Some (bool_str (bool_decide
              (st_hgetall (store w) (room_key roomId) !! "hostId"
               = Some (u_id user)))).
Proof.
  unfold on_join_room, try_catch, bind. cbn [jd_roomId jd_user].
  destruct (negb (nonempty roomId) || negb (nonempty (u_id user))
            || negb (nonempty (u_name user))); [by left|].
  rewrite getRoomData_run. unfold room_of_hash.
  destruct (negb (truthy _)); [by left|]. simpl.
  destruct (_ <=? _); [by left|]. right.
  simpl. rewrite getRoomParticipants_run. simpl.
  by rewrite hgetall_expire, hgetall_sadd, hmset_lookup.
Qed.



(** ** Host re-election in reachable states *)



(** * Further properties *)

(** ** Room codes *)

Lemma append_assoc (a b c : string) : (a +:+ b) +:+ c = a +:+ (b +:+ c).
Proof.
  induction a as [|ch a IH]; [done|].
  change (String ch ((a +:+ b) +:+ c) = String ch (a +:+ b +:+ c)).
  by rewrite IH.
Qed.

Lemma all_chars_append f (a b : string) :
  all_chars f (a +:+ b) = all_chars f a && all_chars f b.
Proof.
  induction a as [|ch a IH]; [done|].
  change (f ch && all_chars f (a +:+ b) = f ch && all_chars f a && all_chars f b).
  by rewrite IH, andb_assoc.
Qed.

Lemma alphabet_char_is_code ch : alphabet_char ch = true → is_code_char ch = true.
Proof. unfold alphabet_char. by intros [? _]%andb_prop. Qed.

Lemma all_chars_impl (f g : ascii → bool) s :
  (∀ ch, f ch = true → g ch = true) → all_chars f s = true → all_chars g s = true.
Proof.
  intros Hfg. induction s as [|ch s IH]; simpl; [done|].
  intros [? ?]%andb_prop. by rewrite Hfg, IH.
Qed.

(** Every index below the length of the alphabet picks one character, and
    that character is an upper-case letter or a digit other than 0, O, 1, I. *)
Lemma charAt_chars (i : nat) :
  (i < 32)%nat →
  ∃ ch, charAt chars i = String ch EmptyString ∧ alphabet_char ch = true.
Proof.
  intros Hi.
  do 32 (destruct i as [|i]; [eexists; split; [reflexivity | reflexivity]|]).
  lia.
Qed.

Lemma generateRoomCode_loop_run n code w :
  (∀ i, (i < n)%nat → (random_ix w (random_pos w + i) < 32)%nat) →
  ∃ suffix w',
    generateRoomCode_loop n code w = (Ok (code +:+ suffix), w')
    ∧ String.length suffix = n
    ∧ all_chars alphabet_char suffix = true
    ∧ store w' = store w ∧ redis_log w' = redis_log w ∧ outbox w' = outbox w
    ∧ random_ix w' = random_ix w ∧ random_pos w' = (random_pos w + n)%nat.
Proof.
  revert code w. induction n as [|n IH]; intros code w Hdraw.
  - exists "", w. simpl. unfold ret.
    replace (code +:+ "") with code
      by (clear; induction code as [|ch code IH]; [done|];
          change (String ch code = String ch (code +:+ "")); by rewrite <- IH).
    repeat split; lia.
  - simpl. unfold bind, random_index.
    destruct (charAt_chars (random_ix w (random_pos w))) as (ch & Hch & Hgood).
    { specialize (Hdraw 0%nat). rewrite Nat.add_0_r in Hdraw. apply Hdraw. lia. }
    rewrite Hch.
    match goal with
    | |- context [generateRoomCode_loop n ?c ?w1] =>
        destruct (IH c w1) as (suffix & w' & -> & Hlen & Hall & Hs & Hl & Ho & Hr & Hp)
    end.
    { intros i Hi. simpl. specialize (Hdraw (S i)).
      replace (random_pos w + S i)%nat with (S (random_pos w + i)) in Hdraw by lia.
      apply Hdraw. lia. }
    simpl in *. exists (String ch suffix), w'.
    rewrite append_assoc. split; [done|]. simpl. rewrite Hlen, Hgood, Hall.
    repeat split; try done. lia.
Qed.

(** X1.  When every draw is an index into the alphabet, [generateRoomCode]
    returns a code of six characters, each an upper-case letter or a digit
    and none of 0, O, 1, I; the key of such a room is one the sweep's
    pattern accepts.  It uses six draws and touches nothing else. *)
Theorem generateRoomCode_yields_code w :
  (∀ i, (i < 6)%nat → (random_ix w (random_pos w + i) < 32)%nat) →
  ∃ code w',
    generateRoomCode w = (Ok code, w')
    ∧ String.length code = 6%nat
    ∧ all_chars alphabet_char code = true
    ∧ match_room_key (room_key code) = Some code
    ∧ store w' = store w ∧ redis_log w' = redis_log w
    ∧ random_pos w' = (random_pos w + 6)%nat.
Proof.
  intros Hdraw. unfold generateRoomCode, config.codeLength.
  destruct (generateRoomCode_loop_run 6 "" w Hdraw)
    as (code & w' & E & Hlen & Hall & Hs & Hl & _ & _ & Hp).
  exists code, w'. rewrite append_nil_l in E.
  repeat split; try done.
  apply match_room_key_Some. split; [done|]. unfold is_code.
  rewrite Hlen. simpl.
  eapply all_chars_impl; [apply alphabet_char_is_code | done].
Qed.

Lemma generateRoomCode_yields_code_witness :
  ∃ code w',
    generateRoomCode world0 = (Ok code, w')
    ∧ String.length code = 6%nat
    ∧ all_chars alphabet_char code = true
    ∧ match_room_key (room_key code) = Some code
    ∧ store w' = store world0 ∧ redis_log w' = redis_log world0
    ∧ random_pos w' = (random_pos world0 + 6)%nat.
Proof.
  apply generateRoomCode_yields_code. intros i Hi. simpl. lia.
Defined.

Lemma generateRoomCode_loop_frame n code w :
  ∃ code' w',
    generateRoomCode_loop n code w = (Ok code', w')
    ∧ store w' = store w ∧ redis_log w' = redis_log w.
Proof.
  revert code w. induction n as [|n IH]; intros code w; simpl.
  - by exists code, w.
  - unfold bind, random_index.
    match goal with
    | |- context [generateRoomCode_loop n ?c ?w1] =>
        destruct (IH c w1) as (code' & w' & -> & Hs & Hl)
    end.
    by exists code', w'.
Qed.

Lemma room_code_loop_run fuel attempts w :
  0 ≤ attempts < 10 → 10 - attempts ≤ Z.of_nat fuel →
  ∃ roomId n w' cmds,
    room_code_loop fuel attempts w = (Ok (roomId, n), w')
    ∧ attempts ≤ n ≤ 10
    ∧ (n < 10 → st_exists (store w) (room_key roomId) = false)
    ∧ store w' = store w
    ∧ redis_log w' = redis_log w ++ cmds
    ∧ Forall (λ cmd, is_EXISTS cmd = true) cmds
    ∧ Z.of_nat (length cmds) = Z.min (n - attempts + 1) (10 - attempts)
    ∧ (n = 10 → Forall (λ cmd, ∃ key, cmd = EXISTS key
                                      ∧ st_exists (store w) key = true) cmds).
Proof.
  revert attempts w. induction fuel as [|fuel IH]; intros attempts w Ha Hf; [lia|].
  simpl. unfold bind at 1. unfold generateRoomCode.
  destruct (generateRoomCode_loop_frame config.codeLength "" w)
    as (roomId & w1 & -> & Hs1 & Hl1).
  unfold bind at 1. cbn [redis.exists_]. rewrite Hs1.
  destruct (st_exists (store w) (room_key roomId)) eqn:Hex; cbn [negb].
  - destruct (Z.ltb_spec (attempts + 1) 10) as [Hlt|Hge].
    + match goal with
      | |- context [room_code_loop fuel _ ?w2] =>
          destruct (IH (attempts + 1) w2 ltac:(lia) ltac:(lia))
            as (r & n & w' & cmds & -> & Hn & Hfree & Hs & Hl & Hall & Hlen & Hten)
      end.
      simpl in *. exists r, n, w', (EXISTS (room_key roomId) :: cmds).
      split; [done|]. split; [lia|]. split; [done|]. split; [done|].
      split; [by rewrite Hl, Hl1, <- app_assoc|].
      split; [by constructor|]. split; [simpl length; lia|].
      intros ->. constructor; [by eexists | by apply Hten].
    + exists roomId, (attempts + 1), (with_store w1 (store w) (EXISTS (room_key roomId))),
        [EXISTS (room_key roomId)].
      split; [done|]. split; [lia|]. split; [lia|]. split; [done|].
      split; [simpl; by rewrite Hl1|]. split; [by repeat constructor|].
      split; [simpl length; lia|].
      intros _. constructor; [by eexists | constructor].
  - exists roomId, attempts, (with_store w1 (store w) (EXISTS (room_key roomId))),
      [EXISTS (room_key roomId)].
    split; [done|]. split; [lia|]. split; [done|]. split; [done|].
    split; [simpl; by rewrite Hl1|]. split; [by repeat constructor|].
    split; [simpl length; lia|]. lia.
Qed.

(** X2.  The collision loop of the create handler stops after ten
    attempts.  It asks Redis about at most ten candidate keys and changes
    nothing; when it reports fewer than ten collisions the code it returns
    is free, and when it reports ten every candidate it asked about was
    taken. *)
Theorem room_code_loop_gives_up_at_ten w :
  ∃ roomId attempts w' cmds,
    room_code_loop 10 0 w = (Ok (roomId, attempts), w')
    ∧ 0 ≤ attempts ≤ 10
    ∧ (attempts < 10 → st_exists (store w) (room_key roomId) = false)
    ∧ store w' = store w
    ∧ redis_log w' = redis_log w ++ cmds
    ∧ Forall (λ cmd, is_EXISTS cmd = true) cmds
    ∧ Z.of_nat (length cmds) = Z.min (attempts + 1) 10
    ∧ (attempts = 10 → Forall (λ cmd, ∃ key, cmd = EXISTS key
                                             ∧ st_exists (store w) key = true) cmds).
Proof.
  destruct (room_code_loop_run 10 0 w ltac:(lia) ltac:(lia))
    as (roomId & n & w' & cmds & E & Hn & Hfree & Hs & Hl & Hall & Hlen & Hten).
  exists roomId, n, w', cmds. repeat split; try done; lia.
Qed.

(** ** Sockets that are not bound to a room *)

Lemma bound_room_None_bound c : bound_room c = None → bound c = None.
Proof.
  unfold bound_room, bound. destruct (currentRoom c) as [room|]; [|done].
  destruct (nonempty room); [done|]. by destruct (currentUser c).
Qed.

(** X3.  A socket that is not bound to a room (it never joined, or it has
    left) can do nothing but join: every other event it sends leaves the
    store, the log, the Socket.io rooms, the outbox and its own state as
    they were. *)
Theorem unbound_socket_is_inert ev sid handler c w :
  socket_handler ev = Some (sid, handler) →
  needs_binding ev = true →
  bound_room c = None →
  handler c w = (Ok c, w).
Proof.
  intros Hev Hneed Hroom. pose proof (bound_room_None_bound c Hroom) as Hb.
  destruct ev; try discriminate Hneed; try discriminate Hev;
    injection Hev as <- <-;
    unfold on_leave_room, on_room_leave, handleLeaveRoom, on_media_change,
      on_media_change_ns, on_playback_state, on_sync_play, on_sync_pause,
      on_sync_seek, on_sync_request, on_sync_state, on_seek, on_request_sync,
      on_chat_message, on_chat_message_ns, on_typing_start, on_typing_stop,
      try_catch, bind;
    rewrite ?Hb, ?Hroom; reflexivity.
Qed.

Lemma unbound_socket_is_inert_witness :
  on_chat_message (mkConn "s9" None None) (mkChatData (Some "hi")) (crowd "ROOM01" 2)
  = (Ok (mkConn "s9" None None), crowd "ROOM01" 2).
Proof.
  exact (unbound_socket_is_inert (EChatMessage "s9" (mkChatData (Some "hi"))) "s9"
           (λ c, on_chat_message c (mkChatData (Some "hi")))
           (mkConn "s9" None None) (crowd "ROOM01" 2) eq_refl eq_refl eq_refl).
Defined.

(** ** Playback events without a time *)

(** X4.  A play, pause or seek event whose payload carries no time is
    dropped: reading [time.toString()] throws, the handler's catch swallows
    the error, and nothing is written or broadcast, bound socket or not. *)
Theorem playback_without_time_is_dropped c w playing :
  on_sync_play c (mkSyncData None) w = (Ok c, w)
  ∧ on_sync_pause c (mkSyncData None) w = (Ok c, w)
  ∧ on_sync_seek c (mkSyncData None) w = (Ok c, w)
  ∧ on_playback_state c (mkPlaybackData playing None) w = (Ok c, w)
  ∧ on_seek c (mkSeekData None) w = (Ok c, w).
Proof.
  unfold on_sync_play, on_sync_pause, on_sync_seek, on_playback_state, on_seek,
    try_catch, bind.
  by destruct (bound c) as [[room cu]|].
Qed.

(** ** Deleting a room *)

Lemma for_each_del_run roomId ids w :
  for_each ids (λ odaId, redis.del (user_key roomId odaId)) w
  = (Ok tt, set_store (add_log w ((λ odaId, DEL (user_key roomId odaId)) <$> ids))
                      (del_users (store w) roomId ids)).
Proof.
  revert w. induction ids as [|odaId ids IH]; intros w.
  - simpl. unfold ret, set_store, add_log. rewrite app_nil_r. by destruct w.
  - simpl. unfold bind. cbn [redis.del]. rewrite IH.
    unfold set_store, add_log. simpl. by rewrite <- app_assoc.
Qed.

Lemma deleteRoom_run roomId w :
  deleteRoom roomId w
  = (Ok tt, set_store (add_log w (deleteRoom_log (store w) roomId))
                      (deleted_room (store w) roomId)).
Proof.
  unfold deleteRoom, bind. cbn [redis.smembers].
  fold (member_ids (store w) roomId). rewrite for_each_del_run.
  unfold set_store, add_log, deleted_room, delete_room_keys, deleteRoom_log.
  unfold redis.del, with_store. simpl. do 2 f_equal.
  by rewrite <- !app_assoc.
Qed.

Lemma hgetall_del_gone s k k' :
  st_hgetall s k' = ∅ → st_hgetall (st_del s k) k' = ∅.
Proof. intros H. rewrite hgetall_del. by case_decide. Qed.

Lemma del_users_keeps_gone s roomId ids k :
  st_hgetall s k = ∅ → st_hgetall (del_users s roomId ids) k = ∅.
Proof.
  revert s. induction ids as [|odaId ids IH]; intros s H; [done|].
  simpl. by apply IH, hgetall_del_gone.
Qed.

Lemma del_users_gone s roomId ids odaId :
  odaId ∈ ids → st_hgetall (del_users s roomId ids) (user_key roomId odaId) = ∅.
Proof.
  revert s. induction ids as [|a ids IH]; intros s Hin; [by apply elem_of_nil in Hin|].
  simpl. apply elem_of_cons in Hin as [->|Hin]; [|by apply IH].
  apply del_users_keeps_gone. by rewrite hgetall_del, decide_True.
Qed.

Lemma delete_room_keys_keeps_gone s roomId k :
  st_hgetall s k = ∅ → st_hgetall (delete_room_keys s roomId) k = ∅.
Proof. intros H. unfold delete_room_keys. by do 3 apply hgetall_del_gone. Qed.

Lemma delete_room_keys_view s roomId :
  room_view (delete_room_keys s roomId) roomId = no_room.
Proof.
  unfold delete_room_keys, room_view, no_room. autorewrite with store.
  repeat case_decide; done.
Qed.

Lemma listing_no_members s roomId :
  st_smembers s (participants_key roomId) = ∅ → listing s roomId = [].
Proof. intros H. unfold listing, member_ids. by rewrite H, elements_empty. Qed.

Lemma api_room_get_status w roomId :
  status_of (fst (api_room_get roomId w))
  = match room_of_hash (st_hgetall (store w) (room_key roomId)) with
    | Some _ => 200
    | None => 404
    end.
Proof.
  unfold api_room_get, try_catch, bind. rewrite getRoomData_run.
  destruct (room_of_hash _); [|reflexivity].
  by rewrite getRoomParticipants_run.
Qed.

(** X5.  [deleteRoom] removes the room as one unit: afterwards the room
    record, the membership set and the chat history are gone, the user record
    of every former member is gone, the listing is empty and
    GET /api/room/:roomId answers 404.  It sends nothing. *)
Theorem deleteRoom_removes_everything w roomId :
  ∃ w',
    deleteRoom roomId w = (Ok tt, w')
    ∧ room_view (store w') roomId = no_room
    ∧ (∀ odaId, odaId ∈ st_smembers (store w) (participants_key roomId) →
                st_hgetall (store w') (user_key roomId odaId) = ∅)
    ∧ listing (store w') roomId = []
    ∧ status_of (fst (api_room_get roomId w')) = 404
    ∧ outbox w' = outbox w ∧ io_rooms w' = io_rooms w.
Proof.
  eexists. split; [apply deleteRoom_run|]. simpl.
  pose proof (delete_room_keys_view
                (del_users (store w) roomId (member_ids (store w) roomId)) roomId)
    as Hview.
  fold (deleted_room (store w) roomId) in Hview.
  split; [done|]. split; [|split; [|split]].
  - intros odaId Hin. unfold deleted_room.
    apply delete_room_keys_keeps_gone, del_users_gone.
    by apply elem_of_elements.
  - apply listing_no_members. unfold room_view, no_room in Hview. congruence.
  - rewrite api_room_get_status. simpl.
    unfold room_view, no_room in Hview. by injection Hview as -> _ _.
  - done.
Qed.

(** ** Leaving *)

Lemma after_removal_gone s room me :
  st_hgetall (after_removal s room me) (user_key room me) = ∅.
Proof. unfold after_removal. by rewrite hgetall_del, decide_True. Qed.

Lemma after_removal_not_member s room me :
  me ∉ st_smembers (after_removal s room me) (participants_key room).
Proof.
  unfold after_removal. rewrite smembers_del, smembers_srem.
  case_decide; [set_solver|]. rewrite decide_True by done. set_solver.
Qed.

Lemma after_removal_room s room me :
  st_hgetall (after_removal s room me) (room_key room) = st_hgetall s (room_key room).
Proof.
  unfold after_removal. rewrite hgetall_del, hgetall_srem.
  by rewrite decide_False by apply user_key_not_room_key.
Qed.

(** X6.  When the last participant leaves, the whole room goes with it:
    the room record, the membership set, the chat history and the leaver's
    user record are gone, GET /api/room/:roomId answers 404, nothing is
    broadcast, and the socket is unbound. *)
Theorem last_leave_deletes_room c w room cu :
  bound c = Some (room, cu) →
  st_scard (after_removal (store w) room (u_id (cu_user cu))) (participants_key room) = 0 →
  ∃ w',
    handleLeaveRoom c w = (Ok (mkConn (socket_id c) None None), w')
    ∧ room_view (store w') room = no_room
    ∧ st_hgetall (store w') (user_key room (u_id (cu_user cu))) = ∅
    ∧ status_of (fst (api_room_get room w')) = 404
    ∧ outbox w' = outbox w.
Proof.
  intros Hb Hz. unfold handleLeaveRoom, try_catch, bind. rewrite Hb. simpl.
  fold (after_removal (store w) room (u_id (cu_user cu))). rewrite Hz. simpl.
  rewrite deleteRoom_run. simpl. eexists. split; [reflexivity|]. simpl.
  pose proof (delete_room_keys_view
                (del_users (after_removal (store w) room (u_id (cu_user cu))) room
                   (member_ids (after_removal (store w) room (u_id (cu_user cu))) room))
                room) as Hview.
  fold (deleted_room (after_removal (store w) room (u_id (cu_user cu))) room) in Hview.
  split; [done|]. split; [|split; [|done]].
  - unfold deleted_room.
    apply delete_room_keys_keeps_gone, del_users_keeps_gone, after_removal_gone.
  - rewrite api_room_get_status. simpl.
    unfold room_view, no_room in Hview. by injection Hview as -> _ _.
Qed.

Lemma last_leave_deletes_room_witness :
  st_exists (store (crowd "ROOM01" 1)) (room_key "ROOM01") = true
  ∧ ∃ w',
      handleLeaveRoom alice_conn (crowd "ROOM01" 1) = (Ok (mkConn "s0" None None), w')
      ∧ room_view (store w') "ROOM01" = no_room
      ∧ st_hgetall (store w') (user_key "ROOM01" "u0") = ∅
      ∧ status_of (fst (api_room_get "ROOM01" w')) = 404
      ∧ outbox w' = outbox (crowd "ROOM01" 1).
Proof.
  split; [vm_compute; reflexivity|].
  apply (last_leave_deletes_room alice_conn (crowd "ROOM01" 1) "ROOM01"
           (mkCurrentUser (member 0) None None)).
  - reflexivity.
  - vm_compute; reflexivity.
Defined.

Lemma handleLeaveRoom_unbinds c w :
  ∃ c1 w1, handleLeaveRoom c w = (Ok c1, w1) ∧ bound c1 = None
           ∧ socket_id c1 = socket_id c.
Proof.
  unfold handleLeaveRoom, try_catch, bind.
  destruct (bound c) as [[room cu]|] eqn:Hb; [|by exists c, w].
  simpl. destruct (_ =? 0).
  - rewrite deleteRoom_run. by eexists _, _.
  - simpl. destruct (room_of_hash _) as [r|]; simpl;
      [destruct (bool_decide _); simpl;
         [rewrite getRoomParticipants_run; simpl;
          destruct (listing _ _) as [|newHost rest]; simpl|]|];
      by eexists _, _.
Qed.


(** X8.  When a participant that is not the host leaves and others remain,
    the room record is left as it was (the host stays), the leaver is out of
    the membership set and its user record is gone, the records of the
    others are untouched, and exactly two events go out: participant_left
    to the others and the system chat message to the room. *)
Theorem non_host_leave_keeps_host c w room cu :
  bound c = Some (room, cu) →
  let me := u_id (cu_user cu) in
  st_scard (after_removal (store w) room me) (participants_key room) ≠ 0 →
  st_hgetall (store w) (room_key room) !! "hostId" ≠ Some me →
  ∃ w' systemMessage,
    handleLeaveRoom c w = (Ok (mkConn (socket_id c) None None), w')
    ∧ st_hgetall (store w') (room_key room) = st_hgetall (store w) (room_key room)
    ∧ (me ∉ st_smembers (store w') (participants_key room))
    ∧ st_hgetall (store w') (user_key room me) = ∅
    ∧ (∀ k, k ≠ user_key room me → st_hgetall (store w') k = st_hgetall (store w) k)
    ∧ outbox w'
      = (outbox w
         ++ [mkEmit (ToRoomExcept room (socket_id c)) "participant_left"
                    (JObj [("userId", JStr me);
                           ("userName", JStr (u_name (cu_user cu)))]);
             mkEmit (ToRoom room) "chat_message" systemMessage]).
Proof.
  intros Hb me Hne Hhost. unfold handleLeaveRoom, try_catch, bind. rewrite Hb.
  simpl. fold me. fold (after_removal (store w) room me).
  destruct (Z.eqb_spec (st_scard (after_removal (store w) room me)
                                 (participants_key room)) 0) as [E|_]; [done|].
  simpl. rewrite after_removal_room. unfold room_of_hash, r_field.
  destruct (negb (truthy _)); simpl;
    [|rewrite bool_decide_false by done; simpl];
    eexists _, _; (split; [reflexivity|]); simpl;
    (split; [by rewrite hgetall_rpush, after_removal_room|]);
    (split; [rewrite smembers_rpush; apply after_removal_not_member|]);
    (split; [by rewrite hgetall_rpush, after_removal_gone|]);
    (split; [|by rewrite <- app_assoc]);
    intros k Hk; unfold after_removal;
    by rewrite hgetall_rpush, hgetall_del, hgetall_srem, decide_False.
Qed.

Lemma non_host_leave_keeps_host_witness :
  ∃ w' systemMessage,
    handleLeaveRoom (mkConn "sb" (Some "AB3XY9") (Some (mkCurrentUser bob None None)))
                    party
    = (Ok (mkConn "sb" None None), w')
    ∧ st_hgetall (store w') (room_key "AB3XY9") = st_hgetall (store party) (room_key "AB3XY9")
    ∧ ("bob" ∉ st_smembers (store w') (participants_key "AB3XY9"))
    ∧ st_hgetall (store w') (user_key "AB3XY9" "bob") = ∅
    ∧ (∀ k, k ≠ user_key "AB3XY9" "bob" →
            st_hgetall (store w') k = st_hgetall (store party) k)
    ∧ outbox w'
      = (outbox party
         ++ [mkEmit (ToRoomExcept "AB3XY9" "sb") "participant_left"
                    (JObj [("userId", JStr "bob"); ("userName", JStr "Bob")]);
             mkEmit (ToRoom "AB3XY9") "chat_message" systemMessage]).
Proof.
  apply (non_host_leave_keeps_host
           (mkConn "sb" (Some "AB3XY9") (Some (mkCurrentUser bob None None)))
           party "AB3XY9" (mkCurrentUser bob None None)).
  - reflexivity.
  - vm_compute. discriminate.
  - vm_compute. discriminate.
Defined.

Lemma handleLeaveRoom_ignores_rooms c w rooms :
  fst (handleLeaveRoom c (with_rooms w rooms)) = fst (handleLeaveRoom c w)
  ∧ same_but_rooms (snd (handleLeaveRoom c (with_rooms w rooms)))
                   (snd (handleLeaveRoom c w)).
Proof.
  unfold handleLeaveRoom, try_catch, bind, same_but_rooms.
  destruct (bound c) as [[room cu]|] eqn:Hb; [|done].
  simpl. destruct (_ =? 0).
  - rewrite !deleteRoom_run. done.
  - simpl. destruct (room_of_hash _) as [r|]; simpl;
      [destruct (bool_decide _); simpl;
         [rewrite !getRoomParticipants_run; simpl;
          destruct (listing _ _) as [|newHost rest]; simpl|]|];
      done.
Qed.

(** X9.  A connection drop converges with an explicit leave: the
    disconnect handler answers as [handleLeaveRoom] does and leaves the same
    store, the same commands in the log and the same events in the outbox;
    the two differ only in the Socket.io rooms, which the transport has
    already emptied of the socket. *)
Theorem disconnect_is_leave c w :
  fst (on_disconnect c w) = fst (handleLeaveRoom c w)
  ∧ same_but_rooms (snd (on_disconnect c w)) (snd (handleLeaveRoom c w)).
Proof.
  unfold on_disconnect. unfold bind at 1.
  apply handleLeaveRoom_ignores_rooms.
Qed.

(** ** Joining *)

Lemma collect_pure_elem s roomId ids odaId :
  odaId ∈ ids →
  truthy (st_hgetall s (user_key roomId odaId) !! "id") = true →
  participant_of_hash (st_hgetall s (user_key roomId odaId))
  ∈ collect_pure s roomId ids.
Proof.
  intros Hin Hid. induction ids as [|a ids IH]; [by apply elem_of_nil in Hin|].
  simpl. apply elem_of_cons in Hin as [<-|Hin].
  - rewrite Hid. by left.
  - destruct (truthy (st_hgetall s (user_key roomId a) !! "id")); [right|];
      by apply IH.
Qed.

Lemma listing_member s roomId odaId :
  odaId ∈ st_smembers s (participants_key roomId) →
  truthy (st_hgetall s (user_key roomId odaId) !! "id") = true →
  participant_of_hash (st_hgetall s (user_key roomId odaId)) ∈ listing s roomId.
Proof.
  intros Hin Hid. unfold listing. rewrite js_sort_perm.
  apply collect_pure_elem; [|done]. unfold member_ids. by apply elem_of_elements.
Qed.

Lemma collect_pure_hashes s1 s2 roomId ids :
  hashes s1 = hashes s2 →
  collect_pure s1 roomId ids = collect_pure s2 roomId ids.
Proof.
  intros Hh. induction ids as [|a ids IH]; [done|]. simpl.
  unfold st_hgetall. by rewrite Hh, IH.
Qed.

Lemma listing_expire s k d roomId :
  listing (st_expire s k d) roomId = listing s roomId.
Proof.
  unfold st_expire. destruct (st_exists s k); [|done].
  unfold listing. by rewrite (collect_pure_hashes _ s).
Qed.

Lemma truthy_nonempty s : truthy (Some s) = nonempty s.
Proof. by destruct s. Qed.

Lemma has_id_exists s k :
  truthy (st_hgetall s k !! "id") = true → st_exists s k = true.
Proof.
  intros Hid. unfold st_exists. rewrite bool_decide_false; [done|].
  intros He. by rewrite He in Hid.
Qed.

Lemma ttl_expire s k d :
  st_exists s k = true → ttls (st_expire s k d) !! k = Some d.
Proof. intros H. unfold st_expire. rewrite H. simpl. by rewrite lookup_insert_eq. Qed.

(** X10.  [join_room] is strict: for a room whose record does not exist
    (or has no id) it answers with one error event to the sender, 'Invalid
    join request' or 'Room not found', writes nothing, joins no Socket.io
    room and leaves the socket as it was. *)
Theorem join_room_rejects_unknown_room c w data :
  room_of_hash (st_hgetall (store w) (room_key (jd_roomId data))) = None →
  ∃ w' message,
    on_join_room c data w = (Ok c, w')
    ∧ (message = "Invalid join request" ∨ message = "Room not found")
    ∧ store w' = store w
    ∧ io_rooms w' = io_rooms w
    ∧ outbox w' = outbox w ++ [mkEmit (ToSender (socket_id c)) "error"
                                      (error_json message)].
Proof.
  intros Hroom. unfold on_join_room, try_catch.
  destruct (jd_user data) as [user|]; [|by eexists _, _; eauto 10].
  destruct (negb (nonempty (jd_roomId data)) || negb (nonempty (u_id user))
            || negb (nonempty (u_name user))); [by eexists _, _; eauto 10|].
  unfold bind. rewrite getRoomData_run, Hroom. by eexists _, _; eauto 10.
Qed.

Lemma join_room_rejects_unknown_room_witness :
  ∃ w' message,
    on_join_room (mkConn "s9" None None) (mkJoinData "NOROOM" (Some bob)) party
    = (Ok (mkConn "s9" None None), w')
    ∧ (message = "Invalid join request" ∨ message = "Room not found")
    ∧ store w' = store party
    ∧ io_rooms w' = io_rooms party
    ∧ outbox w' = outbox party ++ [mkEmit (ToSender "s9") "error" (error_json message)].
Proof.
  apply (join_room_rejects_unknown_room (mkConn "s9" None None) party
           (mkJoinData "NOROOM" (Some bob))).
  vm_compute. reflexivity.
Defined.






(** ** What handlers never do *)

#[export] Instance log_all_preorder P : PreOrder (log_all P).
Proof.
  split.
  - intros w. exists []. by rewrite app_nil_r.
  - intros w1 w2 w3 (c1 & E1 & F1) (c2 & E2 & F2). exists (c1 ++ c2).
    rewrite E2, E1, app_assoc. split; [done | by apply Forall_app].
Qed.

#[export] Instance no_EXPIRE_preorder : PreOrder no_EXPIRE.
Proof. unfold no_EXPIRE. apply _. Qed.

Lemma no_EXPIRE_one w s cmd :
  is_EXPIRE cmd = false → no_EXPIRE w (with_store w s cmd).
Proof. intros H. exists [cmd]. split; [done|]. constructor; [by rewrite H | done]. Qed.

Lemma no_EXPIRE_same_log w w' : redis_log w' = redis_log w → no_EXPIRE w w'.
Proof. intros H. exists []. by rewrite app_nil_r. Qed.

Ltac no_EXPIRE_prim :=
  lazymatch goal with
  | |- steps no_EXPIRE _ =>
      first
        [ solve [intros ?; apply no_EXPIRE_one; reflexivity]
        | solve [intros ?; apply no_EXPIRE_same_log; reflexivity] ]
  end.

Lemma no_EXPIRE_getRoomData roomId : steps no_EXPIRE (getRoomData roomId).
Proof. unfold getRoomData. repeat first [steps_struct | no_EXPIRE_prim]. Qed.

Lemma no_EXPIRE_collect roomId ids acc :
  steps no_EXPIRE (collect_participants roomId ids acc).
Proof.
  revert acc. induction ids as [|odaId ids IH]; intros acc; simpl;
    repeat first [steps_struct | no_EXPIRE_prim | apply IH].
Qed.

Lemma no_EXPIRE_getRoomParticipants roomId :
  steps no_EXPIRE (getRoomParticipants roomId).
Proof.
  unfold getRoomParticipants.
  repeat first [steps_struct | no_EXPIRE_prim | apply no_EXPIRE_collect].
Qed.

Lemma no_EXPIRE_deleteRoom roomId : steps no_EXPIRE (deleteRoom roomId).
Proof. unfold deleteRoom. repeat first [steps_struct | no_EXPIRE_prim]. Qed.

Ltac no_EXPIRE_handler :=
  repeat first
    [ steps_struct
    | lazymatch goal with
      | |- steps _ (getRoomData _) => apply no_EXPIRE_getRoomData
      | |- steps _ (getRoomParticipants _) => apply no_EXPIRE_getRoomParticipants
      | |- steps _ (deleteRoom _) => apply no_EXPIRE_deleteRoom
      end
    | no_EXPIRE_prim ].

Lemma issued_log_all {A} P (m : M A) w :
  log_all P w (snd (m w)) → Forall (λ cmd, P cmd = true) (issued m w).
Proof. intros (cmds & E & F). unfold issued. by rewrite E, drop_app_length. Qed.

(** X14.  Of all socket events only [join_room] refreshes a room's
    expiry: the handler of any other event, whatever the socket's state and
    the payload, issues no EXPIRE command, and neither does the periodic
    sweep. *)
Theorem only_join_room_arms_expiry ev sid handler c w :
  socket_handler ev = Some (sid, handler) → arms_expiry ev = false →
  Forall (λ cmd, is_EXPIRE cmd = false) (issued (handler c) w)
  ∧ Forall (λ cmd, is_EXPIRE cmd = false) (issued cleanup w).
Proof.
  intros Hev Harm.
  assert (Hneg : ∀ cmds, Forall (λ cmd, negb (is_EXPIRE cmd) = true) cmds
                         → Forall (λ cmd, is_EXPIRE cmd = false) cmds).
  { intros cmds H. eapply Forall_impl; [exact H|].
    intros cmd. simpl. by destruct (is_EXPIRE cmd). }
  split; apply Hneg, issued_log_all.
  - change (no_EXPIRE w (snd (handler c w))). revert w.
    change (steps no_EXPIRE (handler c)).
    destruct ev; try discriminate Harm; try discriminate Hev;
      injection Hev as _ <-;
      unfold on_room_join, on_leave_room, on_room_leave, on_disconnect,
        handleLeaveRoom, on_media_change, on_media_change_ns, on_playback_state,
        on_sync_play, on_sync_pause, on_sync_seek, on_sync_request, on_sync_state,
        on_seek, on_request_sync, on_chat_message, on_chat_message_ns,
        on_typing_start, on_typing_stop, toString, the_user;
      no_EXPIRE_handler.
  - change (no_EXPIRE w (snd (cleanup w))). revert w.
    change (steps no_EXPIRE cleanup).
    unfold cleanup, sweep_room. no_EXPIRE_handler.
Qed.

Lemma only_join_room_arms_expiry_witness :
  Forall (λ cmd, is_EXPIRE cmd = false)
         (issued (on_sync_play ann_conn (mkSyncData (Some "12.5"))) party)
  ∧ Forall (λ cmd, is_EXPIRE cmd = false) (issued cleanup party).
Proof.
  apply (only_join_room_arms_expiry
           (ESyncPlay "sa" (mkSyncData (Some "12.5"))) "sa"
           (λ c, on_sync_play c (mkSyncData (Some "12.5"))) ann_conn party);
    reflexivity.
Defined.

#[export] Instance read_only_preorder : PreOrder read_only.
Proof.
  split.
  - by intros w.
  - intros w1 w2 w3 [E1 F1] [E2 F2]. split; congruence.
Qed.

Ltac read_only_prim :=
  lazymatch goal with
  | |- steps read_only _ => solve [intros ?; split; reflexivity]
  end.

Lemma read_only_getRoomData roomId : steps read_only (getRoomData roomId).
Proof. unfold getRoomData. repeat first [steps_struct | read_only_prim]. Qed.

Lemma read_only_collect roomId ids acc :
  steps read_only (collect_participants roomId ids acc).
Proof.
  revert acc. induction ids as [|odaId ids IH]; intros acc; simpl;
    repeat first [steps_struct | read_only_prim | apply IH].
Qed.

Lemma read_only_getRoomParticipants roomId :
  steps read_only (getRoomParticipants roomId).
Proof.
  unfold getRoomParticipants.
  repeat first [steps_struct | read_only_prim | apply read_only_collect].
Qed.

Ltac read_only_handler :=
  repeat first
    [ steps_struct
    | lazymatch goal with
      | |- steps _ (getRoomData _) => apply read_only_getRoomData
      | |- steps _ (getRoomParticipants _) => apply read_only_getRoomParticipants
      end
    | read_only_prim ].

(** X15.  The queries and relays write nothing: the two REST reads, the
    sync requests, the state relay and the typing notices leave the store and
    the Socket.io rooms as they were, for every socket, payload and world,
    whether they answer or fail. *)
Theorem queries_never_write c :
  (∀ roomId, steps read_only (api_room_get roomId))
  ∧ (∀ roomId, steps read_only (api_room_validate roomId))
  ∧ steps read_only (on_sync_request c)
  ∧ (∀ d, steps read_only (on_sync_state c d))
  ∧ steps read_only (on_request_sync c)
  ∧ steps read_only (on_typing_start c)
  ∧ steps read_only (on_typing_stop c).
Proof.
  repeat apply conj; intros;
    unfold api_room_get, api_room_validate, on_sync_request, on_sync_state,
      on_request_sync, on_typing_start, on_typing_stop;
    read_only_handler.
Qed.

(** ** Writing playback state and reading it back *)

Lemma bound_bound_room c room cu : bound c = Some (room, cu) → bound_room c = Some room.
Proof.
  unfold bound, bound_room. destruct (currentRoom c) as [r|]; [|done].
  destruct (currentUser c); [|done]. destruct (nonempty r); [|done]. congruence.
Qed.

Lemma truthy_default o : (if truthy o then default "" o else "") = default "" o.
Proof. destruct o as [[|]|]; done. Qed.

(** X16.  A media change is what a later sync request reads: after
    [media_change] with a type and a url in a room whose record has an id,
    [request_sync] answers the sender with exactly that type and url, not
    playing, at time 0; and so does [sync:request]. *)
Theorem media_change_then_request_sync c w room cu mediaType mediaUrl :
  bound c = Some (room, cu) →
  truthy (st_hgetall (store w) (room_key room) !! "id") = true →
  let w1 := snd (on_media_change c (mkMediaData (Some mediaType) (Some mediaUrl)) w) in
  outbox (snd (on_request_sync c w1))
  = (outbox w1
     ++ [mkEmit (ToSender (socket_id c)) "sync_response"
           (JObj [("isPlaying", JBool false); ("currentTime", JNum "0");
                  ("mediaType", JStr mediaType); ("mediaUrl", JStr mediaUrl);
                  ("timestamp", JNum (num_str (clock w1)))])])
  ∧ outbox (snd (on_sync_request c w1))
    = (outbox w1
       ++ [mkEmit (ToSender (socket_id c)) "sync:state"
             (JObj [("time", JNum "0"); ("playing", JBool false);
                    ("mediaType", JStr mediaType); ("mediaUrl", JStr mediaUrl)])]).
Proof.
  intros Hb Hid w1.
  assert (Hf : ∀ f, st_hgetall (store w1) (room_key room) !! f
                    = match assoc f [("mediaType", mediaType); ("mediaUrl", mediaUrl);
                                     ("isPlaying", "false"); ("currentTime", "0");
                                     ("lastSync", num_str (clock w))] with
                      | Some v => Some v
                      | None => st_hgetall (store w) (room_key room) !! f
                      end).
  { intros f. subst w1. unfold on_media_change, try_catch, bind at 1.
    rewrite Hb. cbn [md_mediaType md_mediaUrl]. rewrite !truthy_default. simpl.
    by rewrite hgetall_rpush, hmset_lookup. }
  unfold on_request_sync, on_sync_request, try_catch, bind.
  rewrite (bound_bound_room _ _ _ Hb), getRoomData_run.
  unfold room_of_hash. rewrite (Hf "id"). simpl. rewrite Hid. simpl.
  unfold r_field. simpl. rewrite !Hf. simpl. done.
Qed.

Lemma media_change_then_request_sync_witness :
  let w1 := snd (on_media_change ann_conn
                   (mkMediaData (Some "youtube") (Some "https://youtu.be/x")) party) in
  outbox (snd (on_request_sync ann_conn w1))
  = (outbox w1
     ++ [mkEmit (ToSender "sa") "sync_response"
           (JObj [("isPlaying", JBool false); ("currentTime", JNum "0");
                  ("mediaType", JStr "youtube"); ("mediaUrl", JStr "https://youtu.be/x");
                  ("timestamp", JNum (num_str (clock w1)))])])
  ∧ outbox (snd (on_sync_request ann_conn w1))
    = (outbox w1
       ++ [mkEmit (ToSender "sa") "sync:state"
             (JObj [("time", JNum "0"); ("playing", JBool false);
                    ("mediaType", JStr "youtube");
                    ("mediaUrl", JStr "https://youtu.be/x")])]).
Proof.
  apply (media_change_then_request_sync ann_conn party "AB3XY9"
           (mkCurrentUser ann None None) "youtube" "https://youtu.be/x");
    vm_compute; reflexivity.
Defined.

(** X17.  The playing flag a reader sees is the last one written:
    [sync:play] sets it, [sync:pause] clears it, [sync:seek] leaves it as it
    was, and none of the three touches the media type or url.  The room
    record must have an id for a reader to see it at all. *)
Theorem playing_flag_follows_play_and_pause c w room cu time :
  bound c = Some (room, cu) →
  truthy (st_hgetall (store w) (room_key room) !! "id") = true →
  let view w' := room_of_hash (st_hgetall (store w') (room_key room)) in
  let data := mkSyncData (Some time) in
  ∃ before played paused sought,
    view w = Some before
    ∧ view (snd (on_sync_play c data w)) = Some played
    ∧ view (snd (on_sync_pause c data w)) = Some paused
    ∧ view (snd (on_sync_seek c data w)) = Some sought
    ∧ r_isPlaying played = true
    ∧ r_isPlaying paused = false
    ∧ r_isPlaying sought = r_isPlaying before
    ∧ Forall (λ r, r_lastSync r = Some (clock w)
                   ∧ r_field r "currentTime" = Some time
                   ∧ r_field r "mediaType" = r_field before "mediaType"
                   ∧ r_field r "mediaUrl" = r_field before "mediaUrl"
                   ∧ r_field r "hostId" = r_field before "hostId")
             [played; paused; sought].
Proof.
  intros Hb Hid view data. subst view data. cbv beta.
  assert (Hplay : store (snd (on_sync_play c (mkSyncData (Some time)) w))
                  = st_hmset (store w) (room_key room)
                      [("isPlaying", "true"); ("currentTime", time);
                       ("lastSync", num_str (clock w))]).
  { unfold on_sync_play, try_catch, bind. rewrite Hb. reflexivity. }
  assert (Hpause : store (snd (on_sync_pause c (mkSyncData (Some time)) w))
                   = st_hmset (store w) (room_key room)
                       [("isPlaying", "false"); ("currentTime", time);
                        ("lastSync", num_str (clock w))]).
  { unfold on_sync_pause, try_catch, bind. rewrite Hb. reflexivity. }
  assert (Hseek : store (snd (on_sync_seek c (mkSyncData (Some time)) w))
                  = st_hmset (store w) (room_key room)
                      [("currentTime", time); ("lastSync", num_str (clock w))]).
  { unfold on_sync_seek, try_catch, bind. rewrite Hb. reflexivity. }
  rewrite Hplay, Hpause, Hseek. unfold room_of_hash.
  rewrite !hmset_lookup. simpl. rewrite Hid. simpl.
  eexists _, _, _, _. do 4 (split; [reflexivity|]).
  do 3 (split; [done|]).
  unfold r_field. cbn [r_data r_lastSync].
  repeat apply Forall_cons_2; try apply Forall_nil_2;
    cbn [r_data r_lastSync];
    rewrite !hmset_lookup, parseInt_num_str; simpl; done.
Qed.

Lemma playing_flag_follows_play_and_pause_witness :
  let view w' := room_of_hash (st_hgetall (store w') (room_key "AB3XY9")) in
  let data := mkSyncData (Some "12.5") in
  ∃ before played paused sought,
    view party = Some before
    ∧ view (snd (on_sync_play ann_conn data party)) = Some played
    ∧ view (snd (on_sync_pause ann_conn data party)) = Some paused
    ∧ view (snd (on_sync_seek ann_conn data party)) = Some sought
    ∧ r_isPlaying played = true
    ∧ r_isPlaying paused = false
    ∧ r_isPlaying sought = r_isPlaying before
    ∧ Forall (λ r, r_lastSync r = Some (clock party)
                   ∧ r_field r "currentTime" = Some "12.5"
                   ∧ r_field r "mediaType" = r_field before "mediaType"
                   ∧ r_field r "mediaUrl" = r_field before "mediaUrl"
                   ∧ r_field r "hostId" = r_field before "hostId")
             [played; paused; sought].
Proof.
  apply (playing_flag_follows_play_and_pause ann_conn party "AB3XY9"
           (mkCurrentUser ann None None) "12.5");
    vm_compute; reflexivity.
Defined.

(** ** The validated chat path *)



(** ** The sweep, once more *)

#[export] Instance silent_preorder : PreOrder silent.
Proof.
  split.
  - by intros w.
  - intros w1 w2 w3 (E1 & F1 & G1) (E2 & F2 & G2). repeat split; congruence.
Qed.

Ltac silent_prim :=
  lazymatch goal with
  | |- steps silent _ => solve [intros ?; repeat split]
  end.

Lemma silent_getRoomData roomId : steps silent (getRoomData roomId).
Proof. unfold getRoomData. repeat first [steps_struct | silent_prim]. Qed.

Lemma silent_deleteRoom roomId : steps silent (deleteRoom roomId).
Proof. unfold deleteRoom. repeat first [steps_struct | silent_prim]. Qed.

Lemma silent_cleanup : steps silent cleanup.
Proof.
  unfold cleanup, sweep_room.
  repeat first
    [ steps_struct
    | lazymatch goal with
      | |- steps _ (getRoomData _) => apply silent_getRoomData
      | |- steps _ (deleteRoom _) => apply silent_deleteRoom
      end
    | silent_prim ].
Qed.

Lemma foldl_swept_fixed now s roomIds :
  Forall (λ R, stale s now R = false) roomIds →
  foldl (swept now) s roomIds = s.
Proof.
  induction 1 as [|R roomIds HR _ IH]; [done|].
  simpl. unfold swept at 2. by rewrite HR.
Qed.

Lemma cleanup_view w roomId :
  is_code roomId = true →
  room_view (store (snd (cleanup w))) roomId
  = if stale (store w) (clock w) roomId then no_room
    else room_view (store w) roomId.
Proof.
  intros Hc. rewrite cleanup_store, sweep_fold by (done || apply swept_codes).
  destruct (stale (store w) (clock w) roomId) eqn:Hst; [|by rewrite andb_false_r].
  by rewrite bool_decide_true by (by eapply stale_room_is_listed).
Qed.

(** X19.  The sweep is idempotent and silent: run again at the same
    instant it deletes nothing more, so the store after two sweeps is the
    store after one; and a sweep sends no event, moves no socket and does
    not advance the clock. *)
Theorem cleanup_twice_is_cleanup_once w :
  let w1 := snd (cleanup w) in
  store (snd (cleanup w1)) = store w1
  ∧ outbox w1 = outbox w ∧ io_rooms w1 = io_rooms w ∧ clock w1 = clock w.
Proof.
  intros w1. destruct (silent_cleanup w) as (Ho & Hr & Hc). fold w1 in Ho, Hr, Hc.
  split; [|done].
  rewrite cleanup_store. apply foldl_swept_fixed.
  eapply Forall_impl; [apply swept_codes|]. intros R HR. simpl in HR.
  rewrite Hc. pose proof (cleanup_view w R HR) as Hv. fold w1 in Hv.
  destruct (stale (store w) (clock w) R) eqn:Hst.
  - by apply stale_no_room.
  - by rewrite (stale_view _ _ _ _ Hv).
Qed.

(** ** Relaying a state *)



(** ** The capacity test, asked and applied *)



(** ** Joining and leaving again *)

Lemma join_room_run c w roomId user room :
  nonempty roomId = true → nonempty (u_id user) = true →
  nonempty (u_name user) = true →
  room_of_hash (st_hgetall (store w) (room_key roomId)) = Some room →
  st_scard (store w) (participants_key roomId) < config.maxParticipants →
  ∃ cu w1 fields deadline,
    on_join_room c (mkJoinData roomId (Some user)) w
    = (Ok (mkConn (socket_id c) (Some roomId) (Some cu)), w1)
    ∧ u_id (cu_user cu) = u_id user
    ∧ store w1
      = st_expire (st_sadd (st_hmset (store w) (user_key roomId (u_id user)) fields)
                           (participants_key roomId) (u_id user))
                  (room_key roomId) deadline.
Proof.
  intros Hr Hi Hn Hroom Hcap.
  unfold on_join_room, try_catch, bind. cbn [jd_roomId jd_user].
  rewrite Hr, Hi, Hn. cbn [negb orb].
  rewrite getRoomData_run, Hroom.
  simpl. destruct (Z.leb_spec config.maxParticipants
                     (st_scard (store w) (participants_key roomId))) as [?|_]; [lia|].
  simpl. rewrite getRoomParticipants_run. simpl.
  by eexists _, _, _, _.
Qed.

(** X22.  Joining and leaving again undoes the join.  When a user who is
    not in the room and is not its host joins through [join_room] and then
    leaves, with others in the room, the membership set and every hash of
    the store are as they were before the join; what stays is the one system
    message appended to the history. *)
Theorem join_then_leave_restores c w roomId user room :
  nonempty roomId = true → nonempty (u_id user) = true →
  nonempty (u_name user) = true →
  room_of_hash (st_hgetall (store w) (room_key roomId)) = Some room →
  st_scard (store w) (participants_key roomId) < config.maxParticipants →
  u_id user ∉ st_smembers (store w) (participants_key roomId) →
  st_smembers (store w) (participants_key roomId) ≠ ∅ →
  st_hgetall (store w) (user_key roomId (u_id user)) = ∅ →
  r_field room "hostId" ≠ Some (u_id user) →
  ∃ c1 w1 w2 systemMessage,
    on_join_room c (mkJoinData roomId (Some user)) w = (Ok c1, w1)
    ∧ handleLeaveRoom c1 w1 = (Ok (mkConn (socket_id c) None None), w2)
    ∧ st_smembers (store w2) (participants_key roomId)
      = st_smembers (store w) (participants_key roomId)
    ∧ (∀ k, st_hgetall (store w2) k = st_hgetall (store w) k)
    ∧ st_list (store w2) (messages_key roomId)
      = st_list (store w) (messages_key roomId) ++ [systemMessage].
Proof.
  intros Hr Hi Hn Hroom Hcap Hnew Hothers Hrec Hhost.
  destruct (join_room_run c w roomId user room Hr Hi Hn Hroom Hcap)
    as (cu & w1 & fields & deadline & Hjoin & Hcu & Hs1).
  set (me := u_id user) in *.
  set (s1 := store w1) in *.
  assert (Hmem : st_smembers (after_removal s1 roomId me) (participants_key roomId)
                 = st_smembers (store w) (participants_key roomId)).
  { unfold after_removal. rewrite smembers_del, smembers_srem, Hs1.
    rewrite decide_False by apply user_key_not_participants_key.
    rewrite decide_True by done.
    rewrite smembers_expire, smembers_sadd, decide_True by done.
    rewrite smembers_hmset. set_solver. }
  assert (Hhash : ∀ k, st_hgetall (after_removal s1 roomId me) k
                       = st_hgetall (store w) k).
  { intros k. unfold after_removal. rewrite hgetall_del, hgetall_srem, Hs1.
    rewrite hgetall_expire, hgetall_sadd, hgetall_hmset.
    destruct (decide (user_key roomId me = k)) as [<-|Hk]; [by rewrite Hrec|done]. }
  assert (Hlist : st_list (after_removal s1 roomId me) (messages_key roomId)
                  = st_list (store w) (messages_key roomId)).
  { unfold after_removal. rewrite list_del, list_srem, Hs1.
    rewrite decide_False by apply user_key_not_messages_key.
    by rewrite list_expire, list_sadd, list_hmset. }
  assert (Hcount : st_scard (after_removal s1 roomId me) (participants_key roomId) ≠ 0).
  { intros Hz. apply Hothers. rewrite <- Hmem. by apply scard_zero_no_members. }
  eexists _, w1, _, _. split; [exact Hjoin|].
  unfold handleLeaveRoom, try_catch, bind.
  unfold bound. cbn [currentRoom currentUser]. rewrite Hr.
  simpl. rewrite Hcu. fold s1. fold (after_removal s1 roomId me).
  destruct (Z.eqb_spec (st_scard (after_removal s1 roomId me)
                                 (participants_key roomId)) 0) as [E|_]; [done|].
  simpl. rewrite Hhash, Hroom. simpl.
  rewrite bool_decide_false by done. simpl.
  split; [reflexivity|]. simpl.
  split; [by rewrite smembers_rpush|].
  split; [by intros k; rewrite hgetall_rpush|].
  by rewrite list_rpush, decide_True, Hlist.
Qed.

Lemma join_then_leave_restores_witness :
  ∃ c1 w1 w2 systemMessage,
    on_join_room (mkConn "s9" None None)
                 (mkJoinData "AB3XY9" (Some (mkUser "dan" "Dan" "" false))) party
    = (Ok c1, w1)
    ∧ handleLeaveRoom c1 w1 = (Ok (mkConn "s9" None None), w2)
    ∧ st_smembers (store w2) (participants_key "AB3XY9")
      = st_smembers (store party) (participants_key "AB3XY9")
    ∧ (∀ k, st_hgetall (store w2) k = st_hgetall (store party) k)
    ∧ st_list (store w2) (messages_key "AB3XY9")
      = st_list (store party) (messages_key "AB3XY9") ++ [systemMessage].
Proof.
  pose (h := st_hgetall (store party) (room_key "AB3XY9")).
  apply (join_then_leave_restores (mkConn "s9" None None) party "AB3XY9"
           (mkUser "dan" "Dan" "" false)
           (mkRoom h (bool_decide (h !! "isPlaying" = Some "true"))
                   (parseInt_field (h !! "createdAt"))
                   (parseInt_field (h !! "lastSync")))).
  - reflexivity.
  - reflexivity.
  - reflexivity.
  - vm_compute. reflexivity.
  - vm_compute. reflexivity.
  - apply (bool_decide_unpack _). vm_compute. exact I.
  - apply (bool_decide_unpack _). vm_compute. exact I.
  - vm_compute. reflexivity.
  - vm_compute. discriminate.
Defined.
